(** * NFT viewer output parser: a shallow embedding of
      [nextjs-tooling/nft-viewer/src/app/common/parser.ts]

    The development follows the layout of the TypeScript module:

    - [JsString]: the [String.prototype] methods and the global [parseInt]
      that the module calls;
    - [Base64]: the two entry points of the [js-base64] package it imports;
    - [DataUrlParser]: the sibling module [./data-url-parser];
    - [JSON]: a reader and a printer for JSON text;
    - section [Parser]: the functions of [parser.ts] themselves, over the
      class [Collaborators] of what they call ([parseDataUrl],
      [JSON.parse], [JSON.stringify]);
    - facts about strings, Base64 and property access, then section
      [ParserFacts] with the properties of the parser, and last the same
      properties on concrete inputs.

    Modelling conventions.  A JavaScript string is a [string]; each [ascii]
    stands for one UTF-16 code unit in the range U+0000..U+00FF, so
    [String.length], prefixes and indices are the JavaScript ones.  Indices
    are [Z] because [indexOf] answers [-1].  A JavaScript [number] that holds
    an integer is a [Z] and [NaN] is [None]; rounding of integers beyond
    2^53 is not modelled.  A [throw] is the [Throw] constructor of [Result],
    carrying the message of the thrown [Error]. *)

From Stdlib Require Import String Ascii List ZArith NArith Bool Lia.
From Stdlib Require Import DecimalString.
Import ListNotations.

Set Warnings "-register-all".

Local Open Scope string_scope.
Local Open Scope Z_scope.

(** The line feed written ['\n'] in the source. *)
Definition LF : string := String (ascii_of_N 10) EmptyString.

(* ================================================================== *)
(** ** String.prototype and parseInt *)

Module JsString.

(** [s.length] *)
Definition len (s : string) : Z := Z.of_nat (String.length s).

Fixpoint take (n : nat) (s : string) : string :=
  match n, s with
  | S n', String c s' => String c (take n' s')
  | _, _ => EmptyString
  end.

Fixpoint drop (n : nat) (s : string) : string :=
  match n, s with
  | S n', String _ s' => drop n' s'
  | _, _ => s
  end.

(** Argument clamping of [substring]: below 0 is 0, above the length is
    the length. *)
Definition clamp (s : string) (i : Z) : nat :=
  Z.to_nat (Z.min (Z.max i 0) (len s)).

(** [s.substring(start, finish)]: both arguments are clamped and, when
    [start > finish], swapped. *)
Definition substring (s : string) (start finish : Z) : string :=
  let a := clamp s start in
  let b := clamp s finish in
  take (Nat.max a b - Nat.min a b) (drop (Nat.min a b) s).

(** [s.substring(start)] *)
Definition substringFrom (s : string) (start : Z) : string :=
  substring s start (len s).

(** [s.startsWith(p)] *)
Fixpoint startsWith (s p : string) {struct p} : bool :=
  match p, s with
  | EmptyString, _ => true
  | String a p', String b s' => Ascii.eqb a b && startsWith s' p'
  | String _ _, EmptyString => false
  end.

(** [s.endsWith(p)] *)
Definition endsWith (s p : string) : bool :=
  (String.length p <=? String.length s)%nat
  && String.eqb (drop (String.length s - String.length p) s) p.

Fixpoint indexOfFrom (s p : string) (i : Z) : Z :=
  if startsWith s p then i
  else match s with
       | EmptyString => -1
       | String _ s' => indexOfFrom s' p (i + 1)
       end.

(** [s.indexOf(p)]: the first position at which [p] occurs, or [-1]. *)
Definition indexOf (s p : string) : Z := indexOfFrom s p 0.

Fixpoint lastIndexOfFrom (s p : string) (i : Z) (found : Z) : Z :=
  let found' := if startsWith s p then i else found in
  match s with
  | EmptyString => found'
  | String _ s' => lastIndexOfFrom s' p (i + 1) found'
  end.

(** [s.lastIndexOf(p)]: the last position at which [p] occurs, or [-1]. *)
Definition lastIndexOf (s p : string) : Z := lastIndexOfFrom s p 0 (-1).

(** Lower-case mapping of one code unit of the range U+0000..U+00FF:
    A..Z and the capital letters U+00C0..U+00DE (but not the
    multiplication sign U+00D7) move up by 32. *)
Definition lowerChar (c : ascii) : ascii :=
  let n := N_of_ascii c in
  if ((65 <=? n) && (n <=? 90)
      || (192 <=? n) && (n <=? 222) && negb (n =? 215))%N
  then ascii_of_N (n + 32) else c.

(** [s.toLocaleLowerCase()], in a locale without special casing rules. *)
Fixpoint toLocaleLowerCase (s : string) : string :=
  match s with
  | EmptyString => EmptyString
  | String c s' => String (lowerChar c) (toLocaleLowerCase s')
  end.

(** White space and line terminators of the range U+0000..U+00FF:
    TAB, LF, VT, FF, CR, SP and NBSP. *)
Definition isWhiteSpace (c : ascii) : bool :=
  let n := N_of_ascii c in
  ((9 <=? n) && (n <=? 13) || (n =? 32) || (n =? 160))%N.

Fixpoint trimStart (s : string) : string :=
  match s with
  | EmptyString => EmptyString
  | String c s' => if isWhiteSpace c then trimStart s' else s
  end.

Fixpoint trimEnd (s : string) : string :=
  match s with
  | EmptyString => EmptyString
  | String c s' =>
      match trimEnd s' with
      | EmptyString => if isWhiteSpace c then EmptyString
                       else String c EmptyString
      | r => String c r
      end
  end.

(** [s.trim()] *)
Definition trim (s : string) : string := trimEnd (trimStart s).

(** Value of a digit in radix up to 36. *)
Definition digitValue (c : ascii) : option Z :=
  let n := N_of_ascii c in
  if ((48 <=? n) && (n <=? 57))%N then Some (Z.of_N n - 48)
  else if ((97 <=? n) && (n <=? 122))%N then Some (Z.of_N n - 87)
  else if ((65 <=? n) && (n <=? 90))%N then Some (Z.of_N n - 55)
  else None.

(** Reads the longest run of radix-[radix] digits at the head of [s];
    [acc] is [None] as long as no digit was read. *)
Fixpoint parseDigits (radix : Z) (s : string) (acc : option Z) : option Z :=
  match s with
  | EmptyString => acc
  | String c s' =>
      match digitValue c with
      | Some d =>
          if d <? radix
          then parseDigits radix s'
                 (Some (radix * match acc with Some a => a | None => 0 end + d))
          else acc
      | None => acc
      end
  end.

(** [parseInt(input)] without radix: leading white space is skipped, one
    sign is read, a [0x] or [0X] prefix selects radix 16 (radix 10
    otherwise), then the longest run of digits is read and whatever follows
    is ignored.  [None] is [NaN]: no digit was read. *)
Definition parseInt (input : string) : option Z :=
  let s := trimStart input in
  let '(sign, s) :=
    match s with
    | String "-" r => (-1, r)
    | String "+" r => (1, r)
    | _ => (1, s)
    end in
  let '(radix, s) :=
    if startsWith s "0x" || startsWith s "0X" then (16, drop 2 s)
    else (10, s) in
  match parseDigits radix s None with
  | Some m => Some (sign * m)
  | None => None
  end.

(** Conversion of an integer [number] to a string, as [+] does with a
    string operand. *)
Definition numberToString (n : Z) : string :=
  NilZero.string_of_int (Z.to_int n).

End JsString.

Import JsString.

(* ================================================================== *)
(** ** The js-base64 package: [Base64.encode] and [Base64.decode] *)

Module Base64.

Definition alphabet : string :=
  "ABCDEFGHIJKLMNOPQRSTUVWXYZabcdefghijklmnopqrstuvwxyz0123456789+/".

(** The character that stands for a six-bit group. *)
Definition charOfSextet (n : N) : ascii :=
  match String.get (N.to_nat n) alphabet with
  | Some c => c
  | None => "="%char
  end.

(** The six-bit group a character stands for; the URL-safe [-] and [_]
    are read as [+] and [/], any other character stands for nothing. *)
Definition sextetOfChar (c : ascii) : option N :=
  let n := N_of_ascii c in
  (if (65 <=? n) && (n <=? 90) then Some (n - 65)
   else if (97 <=? n) && (n <=? 122) then Some (n - 71)
   else if (48 <=? n) && (n <=? 57) then Some (n + 4)
   else if (n =? 43) || (n =? 45) then Some 62
   else if (n =? 47) || (n =? 95) then Some 63
   else None)%N.

(** UTF-8 form of a string of code units below U+0100: one byte below
    U+0080, two bytes from there on. *)
Fixpoint utf8Encode (s : string) : list ascii :=
  match s with
  | EmptyString => []
  | String c s' =>
      let n := N_of_ascii c in
      if (n <? 128)%N then c :: utf8Encode s'
      else ascii_of_N (192 + n / 64) :: ascii_of_N (128 + n mod 64)
             :: utf8Encode s'
  end.

(** Inverse direction.  A lead byte [0xC2] or [0xC3] with its continuation
    byte gives one code unit U+0080..U+00FF; every other byte is kept as
    the code unit of the same value (code points from U+0100 on have no
    counterpart among the code units modelled here). *)
Fixpoint utf8Decode (bs : list ascii) : string :=
  match bs with
  | [] => EmptyString
  | b :: r =>
      match r with
      | b2 :: r2 =>
          let n := N_of_ascii b in
          let n2 := N_of_ascii b2 in
          if ((194 <=? n) && (n <=? 195) && (128 <=? n2) && (n2 <? 192))%N
          then String (ascii_of_N ((n - 192) * 64 + (n2 - 128)))
                      (utf8Decode r2)
          else String b (utf8Decode r)
      | [] => String b EmptyString
      end
  end.

(** Three bytes make four characters; a last group of one or two bytes is
    padded with [=]. *)
Fixpoint encodeBytes (bs : list ascii) : string :=
  match bs with
  | [] => EmptyString
  | a :: r =>
      let x := N_of_ascii a in
      match r with
      | [] =>
          String (charOfSextet (x / 4))
            (String (charOfSextet (x mod 4 * 16)) "==")
      | b :: r' =>
          let y := N_of_ascii b in
          match r' with
          | [] =>
              String (charOfSextet (x / 4))
                (String (charOfSextet (x mod 4 * 16 + y / 16))
                   (String (charOfSextet (y mod 16 * 4)) "="))
          | c :: r'' =>
              let z := N_of_ascii c in
              String (charOfSextet (x / 4))
                (String (charOfSextet (x mod 4 * 16 + y / 16))
                   (String (charOfSextet (y mod 16 * 4 + z / 64))
                      (String (charOfSextet (z mod 64)) (encodeBytes r''))))
          end
      end
  end%N.

(** The six-bit groups of the characters of the alphabet in [s]; padding
    and any other character are dropped. *)
Fixpoint sextets (s : string) : list N :=
  match s with
  | EmptyString => []
  | String c s' =>
      match sextetOfChar c with
      | Some n => n :: sextets s'
      | None => sextets s'
      end
  end.

(** Four groups make three bytes; a last run of three or two groups makes
    two bytes or one. *)
Fixpoint decodeSextets (l : list N) : list ascii :=
  match l with
  | s1 :: s2 :: s3 :: s4 :: r =>
      ascii_of_N (s1 * 4 + s2 / 16)
        :: ascii_of_N (s2 mod 16 * 16 + s3 / 4)
        :: ascii_of_N (s3 mod 4 * 64 + s4)
        :: decodeSextets r
  | [s1; s2; s3] =>
      [ascii_of_N (s1 * 4 + s2 / 16); ascii_of_N (s2 mod 16 * 16 + s3 / 4)]
  | [s1; s2] => [ascii_of_N (s1 * 4 + s2 / 16)]
  | _ => []
  end%N.

(** [Base64.encode(src)]: Base64 of the UTF-8 form of [src]. *)
Definition encode (src : string) : string := encodeBytes (utf8Encode src).

(** [Base64.decode(src)]: the text whose UTF-8 form [src] encodes. *)
Definition decode (src : string) : string :=
  utf8Decode (decodeSextets (sextets src)).

End Base64.

(* ================================================================== *)
(** ** Data model *)

Inductive ContentType := SVG | JPG | PNG | HTML | Link | Unknown.

Record Content := {
  label : option string;
  content : string;
  contentType : ContentType
}.

(** A value produced by [JSON.parse].  A number is kept as the decimal
    [mantissa * 10 ^ exponent] that was read; an object keeps its
    properties in insertion order. *)
Inductive JsonValue :=
| JNull
| JBool (b : bool)
| JNumber (mantissa exponent : Z)
| JString (s : string)
| JArray (items : list JsonValue)
| JObject (fields : list (string * JsonValue)).

(** [ParsedOutput]; the field [json] holds [JNull] where the source holds
    [null]. *)
Record ParsedOutput := {
  gas : Z;
  contents : list Content;
  json : JsonValue
}.

(** What [parseDataUrl] answers for a data URL. *)
Record MimeContent := {
  mediaType : string;
  data : string
}.

(** The [Error]s of the module, named after the place that throws them
    and carrying the message. *)
Inductive Error :=
| InvalidGasFormat (message : string)
| InvalidJson (message : string)
| NoRenderableAttribute (message : string)
| UnsupportedFormat (message : string)
| TypeError (message : string).

Inductive Result (A : Type) :=
| OK (a : A)
| Throw (e : Error).

Arguments OK {A} a.
Arguments Throw {A} e.

Definition bind {A B : Type} (r : Result A) (k : A -> Result B) : Result B :=
  match r with
  | OK a => k a
  | Throw e => Throw e
  end.

Notation "x <- r ;; k" := (bind r (fun x => k))
  (at level 61, r at next level, right associativity).
Notation "' p <- r ;; k" := (bind r (fun x => let p := x in k))
  (at level 61, p pattern, r at next level, right associativity).

(* ================================================================== *)
(** ** The sibling module [./data-url-parser] *)

Module DataUrlParser.

(** Modelled from the spec: the function [parseDataUrl] of
    [./data-url-parser], which [parser.ts] imports and which is not part of
    the sources at hand.  Following section 4.4: a string of the shape
    [data:[<mediaType>][;base64],<data>] gives the media type (the text
    before the first [;] of the header, [text/plain] when empty) and the
    payload (decoded when the header ends in [;base64]); any other string
    gives nothing, and the function never throws. *)
Definition parseDataUrl (url : string) : option MimeContent :=
  if startsWith url "data:" then
    let rest := substringFrom url 5 in
    let comma := indexOf rest "," in
    if comma <? 0 then None
    else
      let header := substring rest 0 comma in
      let payload := substringFrom rest (comma + 1) in
      let semi := indexOf header ";" in
      let declared := if semi <? 0 then header else substring header 0 semi in
      Some {| mediaType := if String.eqb declared EmptyString then "text/plain"
                           else declared;
              data := if endsWith header ";base64"
                      then Base64.decode payload else payload |}
  else None.

End DataUrlParser.

(* ================================================================== *)
(** ** JSON text: a reader and a printer

    [JSON.parse] and [JSON.stringify] belong to the platform; the functions
    of [parser.ts] are stated over any reader and printer (section
    [Parser]).  The two below are used to run them on concrete inputs. *)

Module JSON.

(** The double quote and the backslash. *)
Definition quote : ascii := ascii_of_N 34.

Definition backslash : ascii := ascii_of_N 92.

Definition isSpace (c : ascii) : bool :=
  let n := N_of_ascii c in
  ((n =? 32) || (n =? 9) || (n =? 10) || (n =? 13))%N.

Fixpoint skipSpace (s : string) : string :=
  match s with
  | EmptyString => EmptyString
  | String c s' => if isSpace c then skipSpace s' else s
  end.

Definition isDigit (c : ascii) : bool :=
  let n := N_of_ascii c in ((48 <=? n) && (n <=? 57))%N.

(** Reads a run of decimal digits onto [acc]; answers the value, the
    number of digits read and the rest. *)
Fixpoint readDigits (s : string) (acc count : Z) : Z * Z * string :=
  match s with
  | EmptyString => (acc, count, s)
  | String c s' =>
      if isDigit c
      then readDigits s' (10 * acc + (Z.of_N (N_of_ascii c) - 48)) (count + 1)
      else (acc, count, s)
  end.

Definition hexValue (c : ascii) : option N :=
  match digitValue c with
  | Some d => if d <? 16 then Some (Z.to_N d) else None
  | None => None
  end.

(** Reads a string literal after its opening quote.  An escape [\uXXXX]
    is read when it denotes a code unit below U+0100. *)
Fixpoint readString (s : string) : option (string * string) :=
  match s with
  | EmptyString => None
  | String c s' =>
      if Ascii.eqb c quote then Some (EmptyString, s')
      else if Ascii.eqb c backslash then
        match s' with
        | String e s'' =>
            let continue (d : ascii) (rest : option (string * string)) :=
              match rest with
              | Some (str, r) => Some (String d str, r)
              | None => None
              end in
            if Ascii.eqb e quote then continue e (readString s'')
            else if Ascii.eqb e backslash then continue e (readString s'')
            else if Ascii.eqb e "/" then continue e (readString s'')
            else if Ascii.eqb e "b" then continue (ascii_of_N 8) (readString s'')
            else if Ascii.eqb e "f" then continue (ascii_of_N 12) (readString s'')
            else if Ascii.eqb e "n" then continue (ascii_of_N 10) (readString s'')
            else if Ascii.eqb e "r" then continue (ascii_of_N 13) (readString s'')
            else if Ascii.eqb e "t" then continue (ascii_of_N 9) (readString s'')
            else if Ascii.eqb e "u" then
              match s'' with
              | String h1 (String h2 (String h3 (String h4 s4))) =>
                  match hexValue h1, hexValue h2, hexValue h3, hexValue h4 with
                  | Some 0%N, Some 0%N, Some x, Some y =>
                      continue (ascii_of_N (16 * x + y)) (readString s4)
                  | _, _, _, _ => None
                  end
              | _ => None
              end
            else None
        | EmptyString => None
        end
      else if (N_of_ascii c <? 32)%N then None
      else match readString s' with
           | Some (str, r) => Some (String c str, r)
           | None => None
           end
  end.

(** Reads a number: [-]? digits ([.] digits)? ([eE] [+-]? digits)?, with
    no superfluous leading zero. *)
Definition readNumber (s : string) : option (JsonValue * string) :=
  let '(sign, s1) :=
    match s with String "-" r => (-1, r) | _ => (1, s) end in
  let '(i, ni, s2) := readDigits s1 0 0 in
  if (ni =? 0) || (startsWith s1 "0" && (1 <? ni)) then None
  else
    let fraction :=
      match s2 with
      | String "." r =>
          let '(m, nf, s3) := readDigits r i 0 in
          if nf =? 0 then None else Some (m, - nf, s3)
      | _ => Some (i, 0, s2)
      end in
    match fraction with
    | None => None
    | Some (m, e, s3) =>
        match s3 with
        | String x r =>
            if Ascii.eqb x "e" || Ascii.eqb x "E" then
              let '(esign, r1) :=
                match r with
                | String "-" r' => (-1, r')
                | String "+" r' => (1, r')
                | _ => (1, r)
                end in
              let '(ev, ne, s4) := readDigits r1 0 0 in
              if ne =? 0 then None
              else Some (JNumber (sign * m) (e + esign * ev), s4)
            else Some (JNumber (sign * m) e, s3)
        | EmptyString => Some (JNumber (sign * m) e, s3)
        end
    end.

(** [o[key] = v] on the property list of an object: an existing property
    keeps its place, a new one goes last. *)
Fixpoint setField (key : string) (v : JsonValue)
    (fields : list (string * JsonValue)) : list (string * JsonValue) :=
  match fields with
  | [] => [(key, v)]
  | (k, w) :: r =>
      if String.eqb k key then (k, v) :: r else (k, w) :: setField key v r
  end.

(** Recursive descent; [fuel] bounds the number of nested calls. *)
Fixpoint readValue (fuel : nat) (s : string) : option (JsonValue * string) :=
  match fuel with
  | O => None
  | S fuel' =>
      let s := skipSpace s in
      match s with
      | EmptyString => None
      | String c r =>
          if Ascii.eqb c "n" then
            if startsWith s "null" then Some (JNull, drop 4 s) else None
          else if Ascii.eqb c "t" then
            if startsWith s "true" then Some (JBool true, drop 4 s) else None
          else if Ascii.eqb c "f" then
            if startsWith s "false" then Some (JBool false, drop 5 s)
            else None
          else if Ascii.eqb c quote then
            match readString r with
            | Some (str, rest) => Some (JString str, rest)
            | None => None
            end
          else if Ascii.eqb c "[" then
            match skipSpace r with
            | String "]" rest => Some (JArray [], rest)
            | _ =>
                match readItems fuel' r with
                | Some (items, rest) => Some (JArray items, rest)
                | None => None
                end
            end
          else if Ascii.eqb c "{" then
            match skipSpace r with
            | String "}" rest => Some (JObject [], rest)
            | _ =>
                match readFields fuel' [] r with
                | Some (fields, rest) => Some (JObject fields, rest)
                | None => None
                end
            end
          else readNumber s
      end
  end
with readItems (fuel : nat) (s : string)
    : option (list JsonValue * string) :=
  match fuel with
  | O => None
  | S fuel' =>
      match readValue fuel' s with
      | Some (v, rest) =>
          match skipSpace rest with
          | String "," rest' =>
              match readItems fuel' rest' with
              | Some (items, rest'') => Some (v :: items, rest'')
              | None => None
              end
          | String "]" rest' => Some ([v], rest')
          | _ => None
          end
      | None => None
      end
  end
with readFields (fuel : nat) (acc : list (string * JsonValue)) (s : string)
    : option (list (string * JsonValue) * string) :=
  match fuel with
  | O => None
  | S fuel' =>
      match skipSpace s with
      | String c r =>
          if negb (Ascii.eqb c quote) then None else
          match readString r with
          | Some (key, rest) =>
              match skipSpace rest with
              | String ":" rest' =>
                  match readValue fuel' rest' with
                  | Some (v, rest'') =>
                      let acc' := setField key v acc in
                      match skipSpace rest'' with
                      | String "," rest3 => readFields fuel' acc' rest3
                      | String "}" rest3 => Some (acc', rest3)
                      | _ => None
                      end
                  | None => None
                  end
              | _ => None
              end
          | None => None
          end
      | _ => None
      end
  end.

(** [JSON.parse(text)]: the value, or the message of the [SyntaxError]. *)
Definition parse (text : string) : JsonValue + string :=
  match readValue (2 * String.length text + 2) text with
  | Some (v, rest) =>
      match skipSpace rest with
      | EmptyString => inl v
      | _ => inr "Unexpected non-whitespace character after JSON"
      end
  | None => inr "Unexpected token in JSON"
  end.

Definition hexDigit (n : N) : ascii :=
  match String.get (N.to_nat n) "0123456789abcdef" with
  | Some c => c
  | None => "0"%char
  end.

(** The escapes of a string literal. *)
Fixpoint escape (s : string) : string :=
  match s with
  | EmptyString => EmptyString
  | String c s' =>
      let n := N_of_ascii c in
      (if Ascii.eqb c quote then String backslash (String quote EmptyString)
       else if Ascii.eqb c backslash
            then String backslash (String backslash EmptyString)
       else if (n =? 8)%N then String backslash "b"
       else if (n =? 12)%N then String backslash "f"
       else if (n =? 10)%N then String backslash "n"
       else if (n =? 13)%N then String backslash "r"
       else if (n =? 9)%N then String backslash "t"
       else if (n <? 32)%N
            then String backslash
                   ("u00" ++ String (hexDigit (n / 16))
                                (String (hexDigit (n mod 16)) EmptyString))
       else String c EmptyString) ++ escape s'
  end.

Definition quoted (s : string) : string :=
  String quote (escape s ++ String quote EmptyString).

Fixpoint replicate (n : nat) (c : ascii) : string :=
  match n with
  | O => EmptyString
  | S n' => String c (replicate n' c)
  end.

Fixpoint stripZeros (s : string) : string :=
  match s with
  | EmptyString => EmptyString
  | String c s' =>
      match stripZeros s' with
      | EmptyString => if Ascii.eqb c "0" then EmptyString
                       else String c EmptyString
      | r => String c r
      end
  end.

(** A number in positional notation. *)
Definition printNumber (m e : Z) : string :=
  if 0 <=? e then numberToString (m * 10 ^ e)
  else
    let k := Z.to_nat (- e) in
    let d := numberToString (Z.abs m) in
    let d := replicate (S k - String.length d) "0" ++ d in
    let whole := take (String.length d - k) d in
    let fraction := stripZeros (drop (String.length d - k) d) in
    (if m <? 0 then "-" else EmptyString)
    ++ whole
    ++ match fraction with
       | EmptyString => EmptyString
       | _ => "." ++ fraction
       end.

(** The text of [v] at indentation [indent], each level adding [gap]. *)
Fixpoint stringifyAt (gap indent : string) (v : JsonValue) {struct v}
    : string :=
  let inner := indent ++ gap in
  let compact := String.eqb gap EmptyString in
  let separator := if compact then "," else "," ++ LF ++ inner in
  let opening := if compact then EmptyString else LF ++ inner in
  let closing := if compact then EmptyString else LF ++ indent in
  match v with
  | JNull => "null"
  | JBool true => "true"
  | JBool false => "false"
  | JNumber m e => printNumber m e
  | JString s => quoted s
  | JArray [] => "[]"
  | JArray items =>
      "[" ++ opening
      ++ (fix go (l : list JsonValue) : string :=
            match l with
            | [] => EmptyString
            | x :: r =>
                stringifyAt gap inner x
                ++ match r with [] => EmptyString | _ => separator ++ go r end
            end) items
      ++ closing ++ "]"
  | JObject [] => "{}"
  | JObject fields =>
      "{" ++ opening
      ++ (fix go (l : list (string * JsonValue)) : string :=
            match l with
            | [] => EmptyString
            | (k, x) :: r =>
                quoted k ++ (if compact then ":" else ": ")
                ++ stringifyAt gap inner x
                ++ match r with [] => EmptyString | _ => separator ++ go r end
            end) fields
      ++ closing ++ "}"
  end.

(** [JSON.stringify(value, null, space)] *)
Definition stringify (value : JsonValue) (space : Z) : string :=
  stringifyAt (replicate (Z.to_nat (Z.min space 10)) " ") EmptyString value.

End JSON.

(* ================================================================== *)
(** ** Property access on a value of type [any] *)

Fixpoint lookup (key : string) (fields : list (string * JsonValue))
    : option JsonValue :=
  match fields with
  | [] => None
  | (k, v) :: r => if String.eqb k key then Some v else lookup key r
  end.

(** [json.key]; [None] is [undefined].  Only an object has one of the
    names read here. *)
Definition getProperty (json : JsonValue) (key : string) : option JsonValue :=
  match json with
  | JObject fields => lookup key fields
  | _ => None
  end.

(** [json.key = v] *)
Definition setProperty (json : JsonValue) (key : string) (v : JsonValue)
    : JsonValue :=
  match json with
  | JObject fields => JObject (JSON.setField key v fields)
  | _ => json
  end.

(** Truthiness, as tested by [if (x)]. *)
Definition truthy (v : option JsonValue) : bool :=
  match v with
  | None => false
  | Some JNull => false
  | Some (JBool b) => b
  | Some (JNumber m _) => negb (m =? 0)
  | Some (JString s) => negb (String.eqb s EmptyString)
  | Some (JArray _) => true
  | Some (JObject _) => true
  end.

(* ================================================================== *)
(** ** Occurrences of a marker, in the words of the specification *)

(** [p] occurs in [s] at position [k]. *)
Definition occursAt (p s : string) (k : nat) : Prop :=
  exists before after, s = before ++ p ++ after /\ String.length before = k.

Definition firstOccurrence (p s : string) (k : nat) : Prop :=
  occursAt p s k /\ forall j, occursAt p s j -> (k <= j)%nat.

Definition lastOccurrence (p s : string) (k : nat) : Prop :=
  occursAt p s k /\ forall j, occursAt p s j -> (j <= k)%nat.

(** [inner] is the text between the first occurrence of [beginText] and
    the last occurrence of [endText] in [text]. *)
Definition isTextBetween (text beginText endText inner : string) : Prop :=
  exists before after,
    text = before ++ beginText ++ inner ++ after
    /\ firstOccurrence beginText text (String.length before)
    /\ lastOccurrence endText text
         (String.length (before ++ beginText ++ inner)).

(** The display string of an attribute: the text itself when it is shorter
    than [trimSize], its first [trimSize] characters followed by a note of
    its length otherwise. *)
Definition displayString (s : string) (trimSize : Z) : string :=
  if len s <? trimSize then s
  else take (Z.to_nat trimSize) s
       ++ "... (" ++ numberToString (len s) ++ " bytes total)".

(** The result of a call with the field [gas] set to [g]. *)
Definition withGas (g : Z) (r : Result ParsedOutput) : Result ParsedOutput :=
  match r with
  | OK p => OK {| gas := g; contents := contents p; json := json p |}
  | Throw e => Throw e
  end.


(* ================================================================== *)
(** ** Sample inputs *)

(** The harness output of example 1 of the specification. *)
Definition sampleHarnessOutput : string :=
  "<NFT_GAS>12345</NFT_GAS><NFT_OUTPUT>http://example.com/a.png</NFT_OUTPUT>".



(** The JSON envelope of example 2 of the specification. *)
Definition svgEnvelope : string :=
  "data:application/json,{"
  ++ JSON.quoted "image" ++ ":" ++ JSON.quoted "<svg></svg>" ++ "}".

(** A JSON envelope with the three media attributes. *)
Definition sampleEnvelope : string :=
  "data:application/json,{"
  ++ JSON.quoted "image" ++ ":" ++ JSON.quoted "<svg></svg>" ++ ","
  ++ JSON.quoted "image_data" ++ ":"
  ++ JSON.quoted "http://example.com/a.png" ++ ","
  ++ JSON.quoted "animation_url" ++ ":"
  ++ JSON.quoted "http://example.com/page.html" ++ "}".

(** A JSON envelope with a name, an empty [image] and an [image_data]. *)
Definition emptyImageEnvelope : string :=
  "data:application/json,{"
  ++ JSON.quoted "name" ++ ":" ++ JSON.quoted "Token 1" ++ ","
  ++ JSON.quoted "image" ++ ":" ++ JSON.quoted EmptyString ++ ","
  ++ JSON.quoted "image_data" ++ ":"
  ++ JSON.quoted "http://example.com/a.png" ++ "}".

Definition emptyImageFields : list (string * JsonValue) :=
  [("name", JString "Token 1");
   ("image", JString EmptyString);
   ("image_data", JString "http://example.com/a.png")].

(** A JSON envelope whose [image] is a number. *)
Definition numberImageEnvelope : string :=
  "data:application/json,{" ++ JSON.quoted "image" ++ ":5}".

Definition sampleFields : list (string * JsonValue) :=
  [("image", JString "<svg></svg>");
   ("image_data", JString "http://example.com/a.png");
   ("animation_url", JString "http://example.com/page.html")].

(* ================================================================== *)
(** ** parser.ts *)

(** The collaborators [parser.ts] calls: [parseDataUrl] of
    [./data-url-parser] ([None] is its "not a data URL" answer),
    [JSON.parse] (the right injection is the message of the [SyntaxError])
    and [JSON.stringify(value, null, space)]. *)
Class Collaborators := {
  parseDataUrl : string -> option MimeContent;
  JSON_parse : string -> JsonValue + string;
  JSON_stringify : JsonValue -> Z -> string
}.

(** The collaborators used to run the parser on concrete inputs. *)
Definition reference : Collaborators := {|
  parseDataUrl := DataUrlParser.parseDataUrl;
  JSON_parse := JSON.parse;
  JSON_stringify := JSON.stringify
|}.

Section Parser.

Context {platform : Collaborators}.

(** Lines 25-32. *)
Definition getTextBetween (text beginText endText : string) : string :=
  let beginIndex := indexOf text beginText in
  let endIndex := lastIndexOf text endText in
  if (beginIndex <? 0) || (endIndex <? 0) then EmptyString
  else
    let subStr := substring text (beginIndex + len beginText) endIndex in
    subStr.

(** Lines 34-40.  The message is [e.message || (e + '\n' + json)]: the
    right operand is used for an empty message only, and a [SyntaxError]
    without message prints as its name. *)
Definition parseJson (json : string) : Result JsonValue :=
  match JSON_parse json with
  | inl v => OK v
  | inr message =>
      Throw (InvalidJson (if String.eqb message EmptyString
                          then "SyntaxError" ++ LF ++ json
                          else message))
  end.

(** Lines 42-45. *)
Definition trim (content : string) (trimSize : Z) : string :=
  if len content <? trimSize then content
  else substring content 0 trimSize
       ++ "... (" ++ numberToString (len content) ++ " bytes total)".

(** Lines 128-139: the subtype, from the media type of a data URL or from
    the head or the extension of the lower-cased text. *)
Definition sniffSubtype (mimeContent : option MimeContent)
    (outputLowercase : string) : string :=
  match mimeContent with
  | Some m =>
      let subtype :=
        substringFrom (mediaType m) (lastIndexOf (mediaType m) "/" + 1) in
      if endsWith subtype "+xml"
      then substring subtype 0 (len subtype - 4)
      else subtype
  | None =>
      if startsWith outputLowercase "<svg" then "svg"
      else if startsWith outputLowercase "<html" then "html"
      else substringFrom outputLowercase
             (lastIndexOf outputLowercase "." + 1)
  end.

(** Lines 124 and 142-152. *)
Definition classify (subtype output : string) : ContentType :=
  if String.eqb subtype "svg" then SVG
  else if String.eqb subtype "png" then PNG
  else if String.eqb subtype "jpg" || String.eqb subtype "jpeg" then JPG
  else if String.eqb subtype "html" then HTML
  else if startsWith output "http" then Link
  else Unknown.

(** Lines 159-184: the content to hand out once the type is known. *)
Definition canonicalize (mimeContent : option MimeContent)
    (output outputLowercase : string) (contentType : ContentType) : string :=
  let content :=
    match mimeContent with
    | Some _ => output
    | None =>
        if startsWith outputLowercase "http" then output
        else if startsWith outputLowercase "<svg"
             then "data:image/svg+xml;base64," ++ Base64.encode output
             else output
    end in
  match contentType with
  | HTML =>
      if startsWith output "data:text/html;base64,"
      then Base64.decode (substringFrom output 22)
      else content
  | SVG =>
      if startsWith output "data:image/svg+xml;utf8,"
      then "data:image/svg+xml;base64,"
           ++ Base64.encode match mimeContent with
                            | Some m => data m
                            | None => EmptyString
                            end
      else content
  | _ => content
  end.

(** The message built at line 156; an empty label is falsy. *)
Definition unsupportedMessage (output : string) (label : option string)
    : string :=
  "Unsupported image format "
  ++ match label with
     | Some l => if String.eqb l EmptyString then EmptyString
                 else "for attribute: " ++ l
     | None => EmptyString
     end
  ++ " Not a recognized image! " ++ LF ++ output.

(** Lines 121-187.  [label] is [None] when the argument is left out. *)
Definition decodeOutput (output : string) (label : option string)
    : Result Content :=
  let outputLowercase := toLocaleLowerCase output in
  let mimeContent := parseDataUrl output in
  let subtype := sniffSubtype mimeContent outputLowercase in
  let contentType := classify subtype output in
  match contentType with
  | Unknown => Throw (UnsupportedFormat (unsupportedMessage output label))
  | _ =>
      OK {| content := canonicalize mimeContent output outputLowercase
                         contentType;
            contentType := contentType;
            label := label |}
  end.

(** One of the three blocks at lines 82-98, for the attribute [name]:
    the state is the object, the contents pushed so far and
    [contentFound].  The attribute has type [any]: a truthy value that is
    not a string has no [toLocaleLowerCase], and line 122 throws. *)
Definition decodeAttribute (name : string) (trimSize : Z)
    (state : JsonValue * list Content * bool)
    : Result (JsonValue * list Content * bool) :=
  let '(json, content, contentFound) := state in
  if truthy (getProperty json name) then
    match getProperty json name with
    | Some (JString value) =>
        c <- decodeOutput value (Some name) ;;
        OK (setProperty json name (JString (trim value trimSize)),
            (content ++ [c])%list, true)
    | _ => Throw (TypeError "output.toLocaleLowerCase is not a function")
    end
  else OK state.

(** Lines 66-77: the object of a JSON envelope; [JNull] (the initial
    [null]) for anything that is not a data URL of media type
    [application/json]. *)
Definition parseEnvelope (output : string) : Result JsonValue :=
  let mimeContent := parseDataUrl output in
  match mimeContent with
  | Some m =>
      if String.eqb (mediaType m) "application/json"
      then parseJson (data m)
      else OK JNull
  | None => OK JNull
  end.

(** Lines 65-119; the defaults [gas = 0] and [trimSize = 100] are given by
    the caller. *)
Definition parseContractFunctionOutput (output : string) (gas : Z)
    (trimSize : Z) : Result ParsedOutput :=
  json <- parseEnvelope output ;;
  if truthy (Some json) then
    state <- decodeAttribute "image" trimSize (json, [], false) ;;
    state <- decodeAttribute "image_data" trimSize state ;;
    state <- decodeAttribute "animation_url" trimSize state ;;
    let '(json, content, contentFound) := state in
    if negb contentFound then
      Throw (NoRenderableAttribute
               ("Invalid JSON. Content must be in image, image_data or animation_url attribute"
                ++ LF ++ JSON_stringify json 4))
    else OK {| gas := gas; contents := content; json := json |}
  else
    c <- decodeOutput output None ;;
    let contentType := contentType c in
    let output := content c in
    OK {| gas := gas;
          contents := [{| content := output; contentType := contentType;
                          label := None |}];
          json := json |}.

(** The message built at line 55. *)
Definition invalidGasMessage (gasString output : string) : string :=
  "Invalid gas string. Expecting number, got: " ++ gasString ++ LF ++ output.

(** Lines 50-60. *)
Definition parseTestOutput (output : string) : Result ParsedOutput :=
  let gasString := getTextBetween output "<NFT_GAS>" "</NFT_GAS>" in
  match parseInt gasString with
  | None => Throw (InvalidGasFormat (invalidGasMessage gasString output))
  | Some gas =>
      let content :=
        JsString.trim (getTextBetween output "<NFT_OUTPUT>" "</NFT_OUTPUT>") in
      parseContractFunctionOutput content gas 100
  end.

(** The invariant of lines 80-98: nothing of type [Unknown] is pushed, and
    [contentFound] is set only once something was pushed. *)
Definition attributeInvariant (state : JsonValue * list Content * bool)
    : Prop :=
  let '(_, l, b) := state in
  Forall (fun c => contentType c <> Unknown) l /\ (b = true -> l <> []).

(** The three attribute names of lines 82-98. *)
Definition isMediaAttribute (k : string) : bool :=
  String.eqb k "image" || String.eqb k "image_data"
  || String.eqb k "animation_url".

(** What the block for [name] adds to the contents, given the parsed
    value [j]: nothing when the attribute is falsy, the decoded attribute
    when it is a non-empty string. *)
Definition attributeContent (j : JsonValue) (name : string)
    (l : list Content) : Prop :=
  (truthy (getProperty j name) = false /\ l = [])
  \/ exists value c,
       getProperty j name = Some (JString value)
       /\ value <> EmptyString
       /\ decodeOutput value (Some name) = OK c
       /\ l = [c].

(** The property [k] of the object handed back, given the parsed value
    [j]: the display string for a media attribute that holds a non-empty
    string, the property of [j] otherwise. *)
Definition displayedProperty (j : JsonValue) (trimSize : Z) (k : string)
    : option JsonValue :=
  match getProperty j k with
  | Some (JString value) =>
      if isMediaAttribute k && negb (String.eqb value EmptyString)
      then Some (JString (trim value trimSize))
      else Some (JString value)
  | other => other
  end.

(** Two outcomes that differ at most in the field [json]. *)
Definition agreeOutsideJson (r1 r2 : Result ParsedOutput) : Prop :=
  match r1, r2 with
  | OK p1, OK p2 => gas p1 = gas p2 /\ contents p1 = contents p2
  | Throw e1, Throw e2 => e1 = e2
  | _, _ => False
  end.

(** Two states of the attribute blocks that hold the same contents and
    flag, agree on the attributes [names] still to be read, and hold the
    same object as long as nothing was found. *)
Definition statesAgree (names : list string)
    (st1 st2 : JsonValue * list Content * bool) : Prop :=
  let '(j1, l1, b1) := st1 in
  let '(j2, l2, b2) := st2 in
  l1 = l2 /\ b1 = b2
  /\ (forall k, In k names -> getProperty j1 k = getProperty j2 k)
  /\ (b1 = false -> j1 = j2).

End Parser.

(* ================================================================== *)
(** ** Facts about strings *)

Lemma length_append (u v : string) :
  String.length (u ++ v) = (String.length u + String.length v)%nat.
Proof. induction u as [|c u IH]; simpl; [reflexivity | now rewrite IH]. Qed.

Lemma append_assoc (u v w : string) : (u ++ v) ++ w = u ++ v ++ w.
Proof. induction u as [|c u IH]; simpl; [reflexivity | now rewrite IH]. Qed.

Lemma drop_append (u v : string) : drop (String.length u) (u ++ v) = v.
Proof. induction u as [|c u IH]; simpl; [now destruct v | exact IH]. Qed.

Lemma take_append (u v : string) : take (String.length u) (u ++ v) = u.
Proof.
  induction u as [|c u IH]; simpl; [now destruct v | now rewrite IH].
Qed.

Lemma take_drop (n : nat) (s : string) : take n s ++ drop n s = s.
Proof.
  revert s; induction n as [|n IH]; intros [|c s]; simpl; try reflexivity.
  now rewrite IH.
Qed.

Lemma length_take (n : nat) (s : string) :
  (n <= String.length s)%nat -> String.length (take n s) = n.
Proof.
  revert s; induction n as [|n IH]; intros [|c s]; simpl; intros H;
    try reflexivity; try lia.
  rewrite IH; [reflexivity | lia].
Qed.

Lemma take_all (n : nat) (s : string) :
  (String.length s <= n)%nat -> take n s = s.
Proof.
  revert s; induction n as [|n IH]; intros [|c s]; simpl; intros H;
    try reflexivity; try lia.
  rewrite IH; [reflexivity | lia].
Qed.

Lemma startsWith_append (p v : string) : startsWith (p ++ v) p = true.
Proof.
  induction p as [|c p IH]; simpl; [reflexivity|].
  now rewrite Ascii.eqb_refl, IH.
Qed.

Lemma startsWith_prefix (s p : string) :
  startsWith s p = true -> exists v, s = p ++ v.
Proof.
  revert s; induction p as [|a p IH]; intros s H; simpl in *.
  - now exists s.
  - destruct s as [|b s]; [discriminate|].
    apply andb_true_iff in H as [Hab Hs].
    apply Ascii.eqb_eq in Hab; subst b.
    destruct (IH _ Hs) as [v ->]. now exists v.
Qed.

Lemma occursAt_startsWith (p s : string) (k : nat) :
  occursAt p s k <->
  (k <= String.length s)%nat /\ startsWith (drop k s) p = true.
Proof.
  split.
  - intros (u & v & -> & <-). split.
    + rewrite length_append; lia.
    + rewrite drop_append. apply startsWith_append.
  - intros [Hk H]. apply startsWith_prefix in H as [v Hv].
    exists (take k s), v. split.
    + rewrite <- Hv. symmetry; apply take_drop.
    + now apply length_take.
Qed.

Lemma occursAt_tail (p : string) (c : ascii) (s : string) (k : nat) :
  occursAt p (String c s) (S k) <-> occursAt p s k.
Proof.
  rewrite !occursAt_startsWith; simpl.
  split; intros [Hk H]; (split; [lia | exact H]).
Qed.

Lemma occursAt_head (p s : string) :
  occursAt p s 0 <-> startsWith s p = true.
Proof.
  rewrite occursAt_startsWith; simpl.
  split; [now intros [_ H] | intros H; split; [lia | exact H]].
Qed.

Lemma occursAt_bound (p s : string) (k : nat) :
  occursAt p s k -> (k + String.length p <= String.length s)%nat.
Proof. intros (u & v & -> & <-). rewrite !length_append. lia. Qed.

Lemma indexOfFrom_first (p s : string) (i : Z) (k : nat) :
  firstOccurrence p s k -> indexOfFrom s p i = i + Z.of_nat k.
Proof.
  revert i k; induction s as [|c s IH]; intros i k [Hocc Hmin]; simpl.
  - apply occursAt_startsWith in Hocc as [Hk Hp]; simpl in Hk.
    assert (k = 0%nat) as -> by lia. simpl in Hp. rewrite Hp. lia.
  - destruct (startsWith (String c s) p) eqn:Hhead.
    + apply occursAt_head in Hhead. apply Hmin in Hhead.
      assert (k = 0%nat) as -> by lia. lia.
    + destruct k as [|k].
      * apply occursAt_head in Hocc. congruence.
      * rewrite (IH (i + 1) k); [lia|]. split.
        -- now apply occursAt_tail in Hocc.
        -- intros j Hj. apply (occursAt_tail p c) in Hj.
           apply Hmin in Hj. lia.
Qed.

Lemma indexOf_first (p s : string) (k : nat) :
  firstOccurrence p s k -> indexOf s p = Z.of_nat k.
Proof. intros H. unfold indexOf. now rewrite (indexOfFrom_first p s 0 k). Qed.

Lemma lastIndexOfFrom_none (p s : string) (i found : Z) :
  (forall j, ~ occursAt p s j) -> lastIndexOfFrom s p i found = found.
Proof.
  revert i found; induction s as [|c s IH]; intros i found Hnone; simpl.
  - destruct (startsWith EmptyString p) eqn:Hhead; [|reflexivity].
    apply occursAt_head in Hhead. now apply Hnone in Hhead.
  - destruct (startsWith (String c s) p) eqn:Hhead.
    + apply occursAt_head in Hhead. now apply Hnone in Hhead.
    + apply IH. intros j Hj. apply (occursAt_tail p c) in Hj.
      now apply Hnone in Hj.
Qed.

Lemma lastIndexOfFrom_last (p s : string) (i found : Z) (k : nat) :
  lastOccurrence p s k -> lastIndexOfFrom s p i found = i + Z.of_nat k.
Proof.
  revert i found k; induction s as [|c s IH]; intros i found k [Hocc Hmax];
    simpl.
  - apply occursAt_startsWith in Hocc as [Hk Hp]; simpl in Hk.
    assert (k = 0%nat) as -> by lia. simpl in Hp. rewrite Hp. lia.
  - destruct k as [|k].
    + apply occursAt_head in Hocc. rewrite Hocc.
      rewrite lastIndexOfFrom_none; [lia|].
      intros j Hj. apply (occursAt_tail p c) in Hj. apply Hmax in Hj. lia.
    + rewrite (IH (i + 1) _ k); [lia|]. split.
      * now apply occursAt_tail in Hocc.
      * intros j Hj. apply (occursAt_tail p c) in Hj. apply Hmax in Hj. lia.
Qed.

Lemma lastIndexOf_last (p s : string) (k : nat) :
  lastOccurrence p s k -> lastIndexOf s p = Z.of_nat k.
Proof.
  intros H. unfold lastIndexOf.
  now rewrite (lastIndexOfFrom_last p s 0 (-1) k).
Qed.

Lemma indexOfFrom_cases (p s : string) (i : Z) :
  (indexOfFrom s p i = -1 /\ forall j, ~ occursAt p s j)
  \/ exists k, indexOfFrom s p i = i + Z.of_nat k /\ firstOccurrence p s k.
Proof.
  revert i; induction s as [|c s IH]; intros i; simpl.
  - destruct (startsWith EmptyString p) eqn:Hhead.
    + right. exists 0%nat. split; [lia|]. split; [|intros; lia].
      now apply occursAt_head.
    + left. split; [reflexivity|]. intros j Hj.
      pose proof (occursAt_bound _ _ _ Hj) as Hb. simpl in Hb.
      assert (j = 0%nat) as -> by lia.
      apply occursAt_head in Hj. congruence.
  - destruct (startsWith (String c s) p) eqn:Hhead.
    + right. exists 0%nat. split; [lia|]. split; [|intros; lia].
      now apply occursAt_head.
    + destruct (IH (i + 1)) as [[Hr Hnone]|(k & Hr & Hocc & Hmin)].
      * left. split; [exact Hr|]. intros [|j] Hj.
        -- apply occursAt_head in Hj. congruence.
        -- apply occursAt_tail in Hj. now apply Hnone in Hj.
      * right. exists (S k). split; [lia|]. split.
        -- now apply occursAt_tail.
        -- intros [|j] Hj.
           ++ apply occursAt_head in Hj. congruence.
           ++ apply occursAt_tail in Hj. apply Hmin in Hj. lia.
Qed.

Lemma lastIndexOfFrom_cases (p s : string) (i found : Z) :
  (lastIndexOfFrom s p i found = found /\ forall j, ~ occursAt p s j)
  \/ exists k,
       lastIndexOfFrom s p i found = i + Z.of_nat k /\ lastOccurrence p s k.
Proof.
  revert i found; induction s as [|c s IH]; intros i found.
  - simpl. destruct (startsWith EmptyString p) eqn:Hhead.
    + right. exists 0%nat. split; [lia|]. split.
      * now apply occursAt_head.
      * intros j Hj. pose proof (occursAt_bound _ _ _ Hj) as Hb.
        simpl in Hb. lia.
    + left. split; [reflexivity|]. intros j Hj.
      pose proof (occursAt_bound _ _ _ Hj) as Hb. simpl in Hb.
      assert (j = 0%nat) as -> by lia.
      apply occursAt_head in Hj. congruence.
  - cbn [lastIndexOfFrom]. cbv zeta.
    destruct (IH (i + 1)
                (if startsWith (String c s) p then i else found))
      as [[Hr Hnone]|(k & Hr & Hocc & Hmax)].
    + destruct (startsWith (String c s) p) eqn:Hhead.
      * right. exists 0%nat. split; [lia|]. split.
        -- now apply occursAt_head.
        -- intros [|j] Hj; [lia|].
           apply occursAt_tail in Hj. now apply Hnone in Hj.
      * left. split; [exact Hr|]. intros [|j] Hj.
        -- apply occursAt_head in Hj. congruence.
        -- apply occursAt_tail in Hj. now apply Hnone in Hj.
    + right. exists (S k). split; [lia|]. split.
      * now apply occursAt_tail.
      * intros [|j] Hj; [lia|].
        apply occursAt_tail in Hj. apply Hmax in Hj. lia.
Qed.

Lemma indexOf_absent (p s : string) :
  (forall j, ~ occursAt p s j) -> indexOf s p = -1.
Proof.
  intros Hnone. unfold indexOf.
  destruct (indexOfFrom_cases p s 0) as [[Hr _]|(k & _ & Hocc & _)];
    [exact Hr | now apply Hnone in Hocc].
Qed.

Lemma lastIndexOf_absent (p s : string) :
  (forall j, ~ occursAt p s j) -> lastIndexOf s p = -1.
Proof. intros Hnone. now apply lastIndexOfFrom_none. Qed.

(** [indexOf] and [lastIndexOf] answer the first and the last
    occurrence. *)
Lemma indexOf_firstOccurrence (p s : string) (k : nat) :
  indexOf s p = Z.of_nat k <-> firstOccurrence p s k.
Proof.
  split; [|apply indexOf_first].
  intros H. unfold indexOf in H.
  destruct (indexOfFrom_cases p s 0) as [[Hr _]|(k' & Hr & Hocc)]; [lia|].
  assert (k = k') as -> by lia. exact Hocc.
Qed.

Lemma lastIndexOf_lastOccurrence (p s : string) (k : nat) :
  lastIndexOf s p = Z.of_nat k <-> lastOccurrence p s k.
Proof.
  split; [|apply lastIndexOf_last].
  intros H. unfold lastIndexOf in H.
  destruct (lastIndexOfFrom_cases p s 0 (-1)) as [[Hr _]|(k' & Hr & Hocc)];
    [lia|].
  assert (k = k') as -> by lia. exact Hocc.
Qed.

Lemma substring_middle (u w v : string) :
  substring (u ++ w ++ v) (Z.of_nat (String.length u))
    (Z.of_nat (String.length (u ++ w))) = w.
Proof.
  unfold substring, clamp, len. rewrite !length_append.
  replace (Z.to_nat (Z.min (Z.max (Z.of_nat (String.length u)) 0)
             (Z.of_nat (String.length u
                        + (String.length w + String.length v)))))
    with (String.length u) by lia.
  replace (Z.to_nat (Z.min (Z.max (Z.of_nat (String.length u
                                              + String.length w)) 0)
             (Z.of_nat (String.length u
                        + (String.length w + String.length v)))))
    with (String.length u + String.length w)%nat by lia.
  replace (Nat.min (String.length u) (String.length u + String.length w))
    with (String.length u) by lia.
  replace (Nat.max (String.length u) (String.length u + String.length w)
           - String.length u)%nat
    with (String.length w) by lia.
  rewrite drop_append. apply take_append.
Qed.

Lemma substring_prefix (s : string) (n : Z) :
  substring s 0 n = take (Z.to_nat n) s.
Proof.
  unfold substring, clamp, len.
  replace (Z.to_nat (Z.min (Z.max 0 0) (Z.of_nat (String.length s))))
    with 0%nat by lia.
  rewrite Nat.min_0_l, Nat.max_0_l, Nat.sub_0_r. simpl.
  destruct (Z_le_gt_dec n (Z.of_nat (String.length s))).
  - f_equal. lia.
  - rewrite !take_all; try reflexivity; lia.
Qed.

Lemma length_drop (n : nat) (s : string) :
  String.length (drop n s) = (String.length s - n)%nat.
Proof.
  revert s; induction n as [|n IH]; intros [|c s]; simpl; try reflexivity.
  apply IH.
Qed.

Lemma drop_all (n : nat) (s : string) :
  (String.length s <= n)%nat -> drop n s = EmptyString.
Proof.
  revert s; induction n as [|n IH]; intros [|c s]; simpl; intros H;
    try reflexivity; try lia.
  apply IH. lia.
Qed.

Lemma substring_range (s : string) (a b : nat) :
  (a <= b <= String.length s)%nat ->
  substring s (Z.of_nat a) (Z.of_nat b) = take (b - a) (drop a s).
Proof.
  intros H. unfold substring, clamp, len.
  replace (Z.to_nat (Z.min (Z.max (Z.of_nat a) 0)
                       (Z.of_nat (String.length s)))) with a by lia.
  replace (Z.to_nat (Z.min (Z.max (Z.of_nat b) 0)
                       (Z.of_nat (String.length s)))) with b by lia.
  rewrite Nat.min_l, Nat.max_r by lia. reflexivity.
Qed.

Lemma substringFrom_drop (s : string) (n : Z) :
  0 <= n -> substringFrom s n = drop (Z.to_nat n) s.
Proof.
  intros Hn. unfold substringFrom, len.
  destruct (Z_le_gt_dec n (Z.of_nat (String.length s))).
  - rewrite <- (Z2Nat.id n) at 1 by lia.
    rewrite substring_range by lia.
    apply take_all. rewrite length_drop. lia.
  - rewrite (drop_all (Z.to_nat n)) by lia.
    unfold substring, clamp, len.
    replace (Z.to_nat (Z.min (Z.max n 0) (Z.of_nat (String.length s))))
      with (String.length s) by lia.
    replace (Z.to_nat (Z.min (Z.max (Z.of_nat (String.length s)) 0)
                         (Z.of_nat (String.length s))))
      with (String.length s) by lia.
    rewrite Nat.min_id, Nat.max_id, Nat.sub_diag. now destruct (drop _ s).
Qed.

(** The source function agrees with the words of the specification. *)
Lemma getTextBetween_isTextBetween (text beginText endText inner : string) :
  isTextBetween text beginText endText inner ->
  getTextBetween text beginText endText = inner.
Proof.
  intros (u & v & Htext & Hfirst & Hlast). unfold getTextBetween.
  rewrite (indexOf_first _ _ _ Hfirst), (lastIndexOf_last _ _ _ Hlast).
  rewrite (proj2 (Z.ltb_ge _ 0) (Nat2Z.is_nonneg _)).
  rewrite (proj2 (Z.ltb_ge _ 0) (Nat2Z.is_nonneg _)).
  simpl. unfold len. rewrite <- Nat2Z.inj_add, <- length_append.
  rewrite Htext at 1.
  rewrite <- (append_assoc u beginText (inner ++ v)).
  rewrite <- (append_assoc u beginText inner).
  apply substring_middle.
Qed.

(* ================================================================== *)
(** ** Facts about lower-casing *)

Lemma toLocaleLowerCase_length (s : string) :
  String.length (toLocaleLowerCase s) = String.length s.
Proof. induction s as [|c s IH]; simpl; [reflexivity | now rewrite IH]. Qed.

Lemma toLocaleLowerCase_take (n : nat) (s : string) :
  toLocaleLowerCase (take n s) = take n (toLocaleLowerCase s).
Proof.
  revert s; induction n as [|n IH]; intros [|c s]; simpl; try reflexivity.
  now rewrite IH.
Qed.

Lemma toLocaleLowerCase_drop (n : nat) (s : string) :
  toLocaleLowerCase (drop n s) = drop n (toLocaleLowerCase s).
Proof.
  revert s; induction n as [|n IH]; intros [|c s]; simpl; try reflexivity.
  apply IH.
Qed.

Lemma toLocaleLowerCase_substring (s : string) (a b : Z) :
  toLocaleLowerCase (substring s a b) = substring (toLocaleLowerCase s) a b.
Proof.
  unfold substring, clamp, len. rewrite toLocaleLowerCase_length.
  now rewrite toLocaleLowerCase_take, toLocaleLowerCase_drop.
Qed.

Lemma toLocaleLowerCase_substringFrom (s : string) (a : Z) :
  toLocaleLowerCase (substringFrom s a) = substringFrom (toLocaleLowerCase s) a.
Proof.
  unfold substringFrom, len.
  now rewrite toLocaleLowerCase_substring, toLocaleLowerCase_length.
Qed.

(** Lower-casing neither makes nor removes a full stop. *)
Lemma lowerChar_dot (c : ascii) :
  Ascii.eqb "." (lowerChar c) = Ascii.eqb "." c.
Proof. destruct c as [[] [] [] [] [] [] [] []]; reflexivity. Qed.

Lemma startsWith_single (c a : ascii) (s : string) :
  startsWith (String c s) (String a EmptyString) = Ascii.eqb a c.
Proof. cbn [startsWith]. apply andb_true_r. Qed.

Lemma lastIndexOfFrom_cons (c : ascii) (s p : string) (i found : Z) :
  lastIndexOfFrom (String c s) p i found
  = lastIndexOfFrom s p (i + 1)
      (if startsWith (String c s) p then i else found).
Proof. reflexivity. Qed.

Lemma lastIndexOfFrom_lower_dot (s : string) (i found : Z) :
  lastIndexOfFrom (toLocaleLowerCase s) "." i found
  = lastIndexOfFrom s "." i found.
Proof.
  revert i found; induction s as [|c s IH]; intros i found;
    [reflexivity|].
  cbn [toLocaleLowerCase]. rewrite !lastIndexOfFrom_cons, !startsWith_single.
  now rewrite lowerChar_dot, IH.
Qed.

Lemma lastIndexOf_lower_dot (s : string) :
  lastIndexOf (toLocaleLowerCase s) "." = lastIndexOf s ".".
Proof. apply lastIndexOfFrom_lower_dot. Qed.

Lemma startsWith_lower (s p : string) :
  startsWith s p = true ->
  startsWith (toLocaleLowerCase s) (toLocaleLowerCase p) = true.
Proof.
  revert s; induction p as [|a p IH]; intros [|b s] H; simpl in *;
    try reflexivity; try discriminate.
  apply andb_true_iff in H as [Hab Hs]. apply Ascii.eqb_eq in Hab; subst b.
  now rewrite Ascii.eqb_refl, IH.
Qed.

(** Two texts that start with different characters do not start alike. *)
Lemma startsWith_other_head (s : string) (a b : ascii) (p q : string) :
  a <> b ->
  startsWith s (String a p) = true -> startsWith s (String b q) = false.
Proof.
  intros Hab H. destruct s as [|c s]; simpl in *; [discriminate|].
  apply andb_true_iff in H as [Hac _]. apply Ascii.eqb_eq in Hac; subst c.
  apply Ascii.eqb_neq in Hab. rewrite Ascii.eqb_sym, Hab. reflexivity.
Qed.

(* ================================================================== *)
(** ** Facts about Base64 *)













(* ================================================================== *)
(** ** Facts about property reads and writes *)

Lemma lookup_setField_same (key : string) (v : JsonValue)
    (fields : list (string * JsonValue)) :
  lookup key (JSON.setField key v fields) = Some v.
Proof.
  induction fields as [|[k w] r IH]; simpl.
  - now rewrite String.eqb_refl.
  - destruct (String.eqb k key) eqn:E; simpl; rewrite E; [reflexivity | exact IH].
Qed.

Lemma lookup_setField_other (key key' : string) (v : JsonValue)
    (fields : list (string * JsonValue)) :
  key <> key' ->
  lookup key' (JSON.setField key v fields) = lookup key' fields.
Proof.
  intros Hne. induction fields as [|[k w] r IH]; simpl.
  - apply String.eqb_neq in Hne. now rewrite Hne.
  - destruct (String.eqb k key) eqn:E; simpl.
    + apply String.eqb_eq in E; subst k.
      apply String.eqb_neq in Hne. now rewrite Hne.
    + now rewrite IH.
Qed.

(* ================================================================== *)
(** ** Facts about the truncation helper *)

Lemma trim_displayString (s : string) (trimSize : Z) :
  trim s trimSize = displayString s trimSize.
Proof. unfold trim, displayString. now rewrite substring_prefix. Qed.

(** C4.  A text of length exactly [trimSize] comes back whole
    but followed by the note of its length; a text of length
    [trimSize + 1] comes back as its first [trimSize] characters followed
    by that note. *)
Theorem trim_boundary (content : string) (trimSize : Z) :
  (len content = trimSize ->
   trim content trimSize
   = content ++ "... (" ++ numberToString (len content) ++ " bytes total)")
  /\ (len content = trimSize + 1 ->
      trim content trimSize
      = take (Z.to_nat trimSize) content
        ++ "... (" ++ numberToString (len content) ++ " bytes total)"
      /\ String.length (take (Z.to_nat trimSize) content)
         = Z.to_nat trimSize).
Proof.
  unfold trim, len. split; intros H.
  - replace (Z.of_nat (String.length content) <? trimSize) with false
      by (symmetry; apply Z.ltb_ge; lia).
    rewrite substring_prefix, take_all by lia. reflexivity.
  - replace (Z.of_nat (String.length content) <? trimSize) with false
      by (symmetry; apply Z.ltb_ge; lia).
    rewrite substring_prefix. split; [reflexivity|].
    apply length_take. lia.
Qed.

(* ================================================================== *)
(** ** Facts about the content decoder *)

Section ParserFacts.

Context {platform : Collaborators}.

Set Default Proof Using "Type".

Lemma decodeOutput_classified (output : string) (label : option string)
    (ct : ContentType) :
  classify (sniffSubtype (parseDataUrl output) (toLocaleLowerCase output))
    output = ct ->
  ct <> Unknown ->
  decodeOutput output label
  = OK {| label := label;
          content := canonicalize (parseDataUrl output) output
                       (toLocaleLowerCase output) ct;
          contentType := ct |}.
Proof.
  intros Hct Hknown. unfold decodeOutput. cbv zeta. rewrite Hct.
  destruct ct; try reflexivity. now elim Hknown.
Qed.

Lemma decodeOutput_unknown (output : string) (label : option string) :
  classify (sniffSubtype (parseDataUrl output) (toLocaleLowerCase output))
    output = Unknown ->
  decodeOutput output label
  = Throw (UnsupportedFormat (unsupportedMessage output label)).
Proof. intros Hct. unfold decodeOutput. cbv zeta. now rewrite Hct. Qed.

Lemma decodeOutput_OK (output : string) (l : option string) (c : Content) :
  decodeOutput output l = OK c ->
  contentType c <> Unknown /\ label c = l.
Proof.
  unfold decodeOutput. cbv zeta.
  destruct (classify _ output); intros H; inversion H; subst; simpl;
    split; congruence.
Qed.

Lemma decodeOutput_Throw (output : string) (label : option string) (e : Error) :
  decodeOutput output label = Throw e ->
  e = UnsupportedFormat (unsupportedMessage output label).
Proof.
  unfold decodeOutput. cbv zeta.
  destruct (classify _ output); intros H; inversion H; reflexivity.
Qed.

(* ================================================================== *)
(** ** Facts about the attribute blocks *)

Lemma decodeAttribute_falsy (name : string) (trimSize : Z)
    (j : JsonValue) (l : list Content) (b : bool) :
  truthy (getProperty j name) = false ->
  decodeAttribute name trimSize (j, l, b) = OK (j, l, b).
Proof. intros H. unfold decodeAttribute. now rewrite H. Qed.

Lemma decodeAttribute_truthy (name : string) (trimSize : Z)
    (j : JsonValue) (l : list Content) (b : bool) (v : JsonValue) :
  getProperty j name = Some v ->
  truthy (Some v) = true ->
  decodeAttribute name trimSize (j, l, b)
  = match v with
    | JString value =>
        c <- decodeOutput value (Some name) ;;
        OK (setProperty j name (JString (trim value trimSize)),
            (l ++ [c])%list, true)
    | _ => Throw (TypeError "output.toLocaleLowerCase is not a function")
    end.
Proof.
  intros Hget Htruthy. unfold decodeAttribute. rewrite Hget, Htruthy.
  now destruct v.
Qed.

(** What a block that returns has done: nothing, or one more content. *)
Lemma decodeAttribute_OK (name : string) (trimSize : Z)
    (j j' : JsonValue) (l l' : list Content) (b b' : bool) :
  decodeAttribute name trimSize (j, l, b) = OK (j', l', b') ->
  (j' = j /\ l' = l /\ b' = b)
  \/ exists value c,
       getProperty j name = Some (JString value)
       /\ decodeOutput value (Some name) = OK c
       /\ j' = setProperty j name (JString (trim value trimSize))
       /\ l' = (l ++ [c])%list /\ b' = true.
Proof.
  unfold decodeAttribute.
  destruct (truthy (getProperty j name)).
  - destruct (getProperty j name) as [[| | |value| |]|]; try discriminate.
    destruct (decodeOutput value (Some name)) as [c|e] eqn:Hc; simpl;
      [|discriminate].
    intros H; inversion H; subst. right. now exists value, c.
  - intros H; inversion H; subst. now left.
Qed.

Lemma decodeAttribute_Throw (name : string) (trimSize : Z)
    (state : JsonValue * list Content * bool) (e : Error) :
  decodeAttribute name trimSize state = Throw e ->
  (exists message, e = UnsupportedFormat message)
  \/ (exists message, e = TypeError message).
Proof.
  destruct state as [[j l] b]. unfold decodeAttribute.
  destruct (truthy (getProperty j name)); [|discriminate].
  destruct (getProperty j name) as [[| | |value| |]|];
    try (intros H; inversion H; right; eexists; reflexivity).
  destruct (decodeOutput value (Some name)) as [c|e'] eqn:Hc; simpl;
    [discriminate|].
  intros H; inversion H; subst. apply decodeOutput_Throw in Hc.
  left. eexists; exact Hc.
Qed.

Lemma decodeAttribute_invariant (name : string) (trimSize : Z)
    (state state' : JsonValue * list Content * bool) :
  attributeInvariant state ->
  decodeAttribute name trimSize state = OK state' ->
  attributeInvariant state'.
Proof.
  destruct state as [[j l] b], state' as [[j' l'] b'].
  intros [Hall Hfound] H.
  apply decodeAttribute_OK in H
    as [(-> & -> & ->)|(value & c & _ & Hc & -> & -> & ->)].
  - now split.
  - apply decodeOutput_OK in Hc as [Hc _]. split.
    + apply Forall_app. split; [exact Hall|]. now constructor.
    + intros _ Hnil. now apply app_eq_nil in Hnil as [_ Hnil].
Qed.

(* ================================================================== *)
(** ** Facts about the function-output parser *)

Lemma parseContractFunctionOutput_withGas (output : string) (g trimSize : Z) :
  parseContractFunctionOutput output g trimSize
  = withGas g (parseContractFunctionOutput output 0 trimSize).
Proof.
  unfold parseContractFunctionOutput.
  destruct (parseEnvelope output) as [j|e]; cbn [bind]; [|reflexivity].
  destruct (truthy (Some j)).
  - destruct (decodeAttribute "image" trimSize (j, [], false))
      as [st1|e]; cbn [bind]; [|reflexivity].
    destruct (decodeAttribute "image_data" trimSize st1)
      as [st2|e]; cbn [bind]; [|reflexivity].
    destruct (decodeAttribute "animation_url" trimSize st2)
      as [[[j3 l3] b3]|e]; cbn [bind]; [|reflexivity].
    now destruct b3.
  - now destruct (decodeOutput output None).
Qed.

Lemma parseContractFunctionOutput_contents (output : string)
    (g trimSize : Z) (r : ParsedOutput) :
  parseContractFunctionOutput output g trimSize = OK r ->
  Forall (fun c => contentType c <> Unknown) (contents r)
  /\ contents r <> [].
Proof.
  unfold parseContractFunctionOutput.
  destruct (parseEnvelope output) as [j|e]; cbn [bind]; [|discriminate].
  destruct (truthy (Some j)).
  - destruct (decodeAttribute "image" trimSize (j, [], false))
      as [st1|e] eqn:H1; cbn [bind]; [|discriminate].
    destruct (decodeAttribute "image_data" trimSize st1)
      as [st2|e] eqn:H2; cbn [bind]; [|discriminate].
    destruct (decodeAttribute "animation_url" trimSize st2)
      as [[[j3 l3] b3]|e] eqn:H3; cbn [bind]; [|discriminate].
    assert (Hinv : attributeInvariant (j3, l3, b3)).
    { eapply decodeAttribute_invariant; [|exact H3].
      eapply decodeAttribute_invariant; [|exact H2].
      eapply decodeAttribute_invariant; [|exact H1].
      split; [constructor | discriminate]. }
    destruct Hinv as [Hall Hfound].
    destruct b3; cbn [bind]; [|discriminate].
    intros H; inversion H; subst; simpl. split; [exact Hall | now apply Hfound].
  - destruct (decodeOutput output None) as [c|e] eqn:Hc; cbn [bind]; [|discriminate].
    apply decodeOutput_OK in Hc as [Hc _].
    intros H; inversion H; subst; simpl. split; [|discriminate].
    constructor; [exact Hc | constructor].
Qed.


Lemma parseEnvelope_object (output : string) (m : MimeContent)
    (j : JsonValue) :
  parseDataUrl output = Some m ->
  mediaType m = "application/json" ->
  JSON_parse (data m) = inl j ->
  parseEnvelope output = OK j.
Proof.
  intros Hm Htype Hparse. unfold parseEnvelope, parseJson.
  now rewrite Hm, Htype, Hparse.
Qed.

(* ================================================================== *)
(** ** The claims *)

(** C1.  Let the input be a data URL of media type [application/json]
    whose payload parses to an object in which [image], [image_data] and
    [animation_url] are all present and truthy.  Then every result the
    function-output parser returns holds exactly three contents, decoded
    from the three attributes in the order image, image_data,
    animation_url and labelled with these names; in the returned [json]
    each of the three attributes is its display string (unchanged below
    [trimSize], cut and annotated from [trimSize] on).  And the parser does
    return once the three attributes are strings that the content decoder
    accepts. *)
Theorem three_attributes_three_contents
    (output : string) (g trimSize : Z) (m : MimeContent)
    (fields : list (string * JsonValue)) (v1 v2 v3 : JsonValue) :
  parseDataUrl output = Some m ->
  mediaType m = "application/json" ->
  JSON_parse (data m) = inl (JObject fields) ->
  lookup "image" fields = Some v1 -> truthy (Some v1) = true ->
  lookup "image_data" fields = Some v2 -> truthy (Some v2) = true ->
  lookup "animation_url" fields = Some v3 -> truthy (Some v3) = true ->
  (forall r,
      parseContractFunctionOutput output g trimSize = OK r ->
      exists s1 s2 s3 c1 c2 c3,
        v1 = JString s1 /\ v2 = JString s2 /\ v3 = JString s3
        /\ decodeOutput s1 (Some "image") = OK c1
        /\ decodeOutput s2 (Some "image_data") = OK c2
        /\ decodeOutput s3 (Some "animation_url") = OK c3
        /\ contents r = [c1; c2; c3]
        /\ label c1 = Some "image"
        /\ label c2 = Some "image_data"
        /\ label c3 = Some "animation_url"
        /\ getProperty (json r) "image"
           = Some (JString (displayString s1 trimSize))
        /\ getProperty (json r) "image_data"
           = Some (JString (displayString s2 trimSize))
        /\ getProperty (json r) "animation_url"
           = Some (JString (displayString s3 trimSize)))
  /\ (forall s1 s2 s3 c1 c2 c3,
         v1 = JString s1 -> v2 = JString s2 -> v3 = JString s3 ->
         decodeOutput s1 (Some "image") = OK c1 ->
         decodeOutput s2 (Some "image_data") = OK c2 ->
         decodeOutput s3 (Some "animation_url") = OK c3 ->
         exists r, parseContractFunctionOutput output g trimSize = OK r).
Proof.
  intros Hm Htype Hparse L1 T1 L2 T2 L3 T3.
  pose proof (parseEnvelope_object _ _ _ Hm Htype Hparse) as Henv.
  assert (Hrun : forall s1 s2 s3 c1 c2 c3,
             v1 = JString s1 -> v2 = JString s2 -> v3 = JString s3 ->
             decodeOutput s1 (Some "image") = OK c1 ->
             decodeOutput s2 (Some "image_data") = OK c2 ->
             decodeOutput s3 (Some "animation_url") = OK c3 ->
             parseContractFunctionOutput output g trimSize
             = OK {| gas := g; contents := [c1; c2; c3];
                     json := JObject
                       (JSON.setField "animation_url"
                          (JString (trim s3 trimSize))
                          (JSON.setField "image_data"
                             (JString (trim s2 trimSize))
                             (JSON.setField "image"
                                (JString (trim s1 trimSize)) fields))) |}).
  { intros s1 s2 s3 c1 c2 c3 -> -> -> D1 D2 D3.
    unfold parseContractFunctionOutput. rewrite Henv. cbn [bind truthy].
    rewrite (decodeAttribute_truthy "image" trimSize _ _ _ (JString s1))
      by assumption.
    rewrite D1. cbn [bind setProperty].
    rewrite (decodeAttribute_truthy "image_data" trimSize _ _ _ (JString s2));
      [|cbn [getProperty]; rewrite lookup_setField_other;
          [assumption | discriminate] | assumption].
    rewrite D2. cbn [bind setProperty].
    rewrite (decodeAttribute_truthy "animation_url" trimSize _ _ _
               (JString s3));
      [|cbn [getProperty]; rewrite !lookup_setField_other;
          [assumption | discriminate | discriminate] | assumption].
    rewrite D3. reflexivity. }
  split.
  - intros r Hr.
    assert (Hstrings : exists s1 s2 s3 c1 c2 c3,
               v1 = JString s1 /\ v2 = JString s2 /\ v3 = JString s3
               /\ decodeOutput s1 (Some "image") = OK c1
               /\ decodeOutput s2 (Some "image_data") = OK c2
               /\ decodeOutput s3 (Some "animation_url") = OK c3).
    { unfold parseContractFunctionOutput in Hr. rewrite Henv in Hr.
      cbn [bind truthy] in Hr.
      rewrite (decodeAttribute_truthy "image" trimSize _ _ _ v1) in Hr
        by assumption.
      destruct v1 as [| | |s1| |]; try discriminate.
      destruct (decodeOutput s1 (Some "image")) as [c1|e1] eqn:D1;
        [|discriminate].
      cbn [bind setProperty] in Hr.
      rewrite (decodeAttribute_truthy "image_data" trimSize _ _ _ v2) in Hr;
        [|cbn [getProperty]; rewrite lookup_setField_other;
            [assumption | discriminate] | assumption].
      destruct v2 as [| | |s2| |]; try discriminate.
      destruct (decodeOutput s2 (Some "image_data")) as [c2|e2] eqn:D2;
        [|discriminate].
      cbn [bind setProperty] in Hr.
      rewrite (decodeAttribute_truthy "animation_url" trimSize _ _ _ v3)
        in Hr;
        [|cbn [getProperty]; rewrite !lookup_setField_other;
            [assumption | discriminate | discriminate] | assumption].
      destruct v3 as [| | |s3| |]; try discriminate.
      destruct (decodeOutput s3 (Some "animation_url")) as [c3|e3] eqn:D3;
        [|discriminate].
      now exists s1, s2, s3, c1, c2, c3. }
    destruct Hstrings as (s1 & s2 & s3 & c1 & c2 & c3
                          & E1 & E2 & E3 & D1 & D2 & D3).
    rewrite (Hrun _ _ _ _ _ _ E1 E2 E3 D1 D2 D3) in Hr.
    inversion Hr; subst r; clear Hr. cbn [contents json getProperty].
    exists s1, s2, s3, c1, c2, c3.
    rewrite <- !trim_displayString.
    repeat split; try assumption;
      try (now apply decodeOutput_OK in D1);
      try (now apply decodeOutput_OK in D2);
      try (now apply decodeOutput_OK in D3).
    + rewrite !lookup_setField_other by discriminate.
      apply lookup_setField_same.
    + rewrite lookup_setField_other by discriminate.
      apply lookup_setField_same.
    + apply lookup_setField_same.
  - intros s1 s2 s3 c1 c2 c3 E1 E2 E3 D1 D2 D3.
    eexists. exact (Hrun _ _ _ _ _ _ E1 E2 E3 D1 D2 D3).
Qed.

(** C2.  When [gasText] is the text between the first [<NFT_GAS>] and the
    last [</NFT_GAS>] of the input and [inner] the text between the first
    [<NFT_OUTPUT>] and the last [</NFT_OUTPUT>], the harness-output
    extractor answers what the function-output parser answers for the
    trimmed [inner] with its defaults, with the field [gas] set to the
    integer read from [gasText] instead of 0; when no integer can be read
    from [gasText] it throws [InvalidGasFormat]. *)
Theorem parseTestOutput_refines (output gasText inner : string) :
  isTextBetween output "<NFT_GAS>" "</NFT_GAS>" gasText ->
  isTextBetween output "<NFT_OUTPUT>" "</NFT_OUTPUT>" inner ->
  parseTestOutput output
  = match parseInt gasText with
    | Some g =>
        withGas g (parseContractFunctionOutput (JsString.trim inner) 0 100)
    | None => Throw (InvalidGasFormat (invalidGasMessage gasText output))
    end.
Proof.
  intros Hgas Hinner. unfold parseTestOutput. cbv zeta.
  rewrite (getTextBetween_isTextBetween _ _ _ _ Hgas).
  rewrite (getTextBetween_isTextBetween _ _ _ _ Hinner).
  destruct (parseInt gasText) as [g|]; [|reflexivity].
  apply parseContractFunctionOutput_withGas.
Qed.


(** C5.  A content that the content decoder returns never has type
    [Unknown], and so neither has any content of a result of the two
    parsers: when the sniffing ends in [Unknown] the call throws
    [UnsupportedFormat], with a message that names the attribute label
    when one was given.  The text [foo.xyz], which is no data URL, is
    such an input. *)
Theorem unknown_never_returned :
  (forall output l c,
      decodeOutput output l = OK c -> contentType c <> Unknown)
  /\ (forall output l,
         classify (sniffSubtype (parseDataUrl output)
                     (toLocaleLowerCase output)) output = Unknown ->
         decodeOutput output l
         = Throw (UnsupportedFormat
                    ("Unsupported image format "
                     ++ match l with
                        | Some name =>
                            if String.eqb name EmptyString then EmptyString
                            else "for attribute: " ++ name
                        | None => EmptyString
                        end
                     ++ " Not a recognized image! " ++ LF ++ output)))
  /\ (forall output g trimSize r,
         parseContractFunctionOutput output g trimSize = OK r ->
         Forall (fun c => contentType c <> Unknown) (contents r))
  /\ (forall output r,
         parseTestOutput output = OK r ->
         Forall (fun c => contentType c <> Unknown) (contents r))
  /\ (parseDataUrl "foo.xyz" = None ->
      forall l, exists message,
        decodeOutput "foo.xyz" l = Throw (UnsupportedFormat message)).
Proof.
  repeat split.
  - intros output l c H. now apply decodeOutput_OK in H.
  - intros output l H. now apply decodeOutput_unknown.
  - intros output g trimSize r H.
    now apply parseContractFunctionOutput_contents in H.
  - intros output r H. unfold parseTestOutput in H. cbv zeta in H.
    destruct (parseInt _); [|discriminate].
    now apply parseContractFunctionOutput_contents in H.
  - intros Hnone l. eexists. apply decodeOutput_unknown.
    rewrite Hnone. reflexivity.
Qed.

(** C6.  A result that the function-output parser or the harness-output
    extractor returns has at least one content: on a truthy JSON value
    with none of the three attributes truthy the call throws
    [NoRenderableAttribute], and when the JSON value is falsy (no JSON
    envelope) a returned result holds exactly one content. *)
Theorem contents_never_empty :
  (forall output g trimSize r,
      parseContractFunctionOutput output g trimSize = OK r ->
      contents r <> [])
  /\ (forall output r, parseTestOutput output = OK r -> contents r <> [])
  /\ (forall output g trimSize j,
         parseEnvelope output = OK j ->
         truthy (Some j) = true ->
         truthy (getProperty j "image") = false ->
         truthy (getProperty j "image_data") = false ->
         truthy (getProperty j "animation_url") = false ->
         exists message,
           parseContractFunctionOutput output g trimSize
           = Throw (NoRenderableAttribute message))
  /\ (forall output g trimSize j r,
         parseEnvelope output = OK j ->
         truthy (Some j) = false ->
         parseContractFunctionOutput output g trimSize = OK r ->
         exists c, decodeOutput output None = OK c
                   /\ contents r = [{| label := None;
                                       content := content c;
                                       contentType := contentType c |}]).
Proof.
  repeat split.
  - intros output g trimSize r H.
    now apply parseContractFunctionOutput_contents in H.
  - intros output r H. unfold parseTestOutput in H. cbv zeta in H.
    destruct (parseInt _); [|discriminate].
    now apply parseContractFunctionOutput_contents in H.
  - intros output g trimSize j Henv Hj H1 H2 H3.
    unfold parseContractFunctionOutput. rewrite Henv. cbn [bind].
    rewrite Hj, decodeAttribute_falsy by assumption. cbn [bind].
    rewrite decodeAttribute_falsy by assumption. cbn [bind].
    rewrite decodeAttribute_falsy by assumption. cbn [bind negb].
    eexists; reflexivity.
  - intros output g trimSize j r Henv Hj H.
    unfold parseContractFunctionOutput in H. rewrite Henv in H.
    cbn [bind] in H. rewrite Hj in H.
    destruct (decodeOutput output None) as [c|e]; [|discriminate].
    exists c. split; [reflexivity|]. now inversion H.
Qed.


(** C8.  For a text [data:image/svg+xml;base64,B] that the data-URL parser
    recognizes with media type [image/svg+xml], the content decoder
    returns a content of type [SVG] whose content is the text itself. *)
Theorem canonical_svg_unchanged
    (B : string) (l : option string) (m : MimeContent) :
  parseDataUrl ("data:image/svg+xml;base64," ++ B) = Some m ->
  mediaType m = "image/svg+xml" ->
  decodeOutput ("data:image/svg+xml;base64," ++ B) l
  = OK {| label := l;
          content := "data:image/svg+xml;base64," ++ B;
          contentType := SVG |}.
Proof.
  intros Hm Htype.
  rewrite (decodeOutput_classified _ l SVG).
  - rewrite Hm. reflexivity.
  - rewrite Hm. unfold sniffSubtype. rewrite Htype. reflexivity.
  - discriminate.
Qed.

(** C9.  For a data URL that is classified as [HTML]: when the
    text is [data:text/html;base64,] followed by [B], the content decoder
    returns the Base64-decoded [B] as content; when the text does not
    start with exactly [data:text/html;base64,], it returns the text
    unchanged.  The type is [HTML] in both cases. *)
Theorem html_base64_decoded
    (output : string) (l : option string) (m : MimeContent) :
  parseDataUrl output = Some m ->
  classify (sniffSubtype (Some m) (toLocaleLowerCase output)) output = HTML ->
  (forall B,
      output = "data:text/html;base64," ++ B ->
      decodeOutput output l
      = OK {| label := l; content := Base64.decode B; contentType := HTML |})
  /\ (startsWith output "data:text/html;base64," = false ->
      decodeOutput output l
      = OK {| label := l; content := output; contentType := HTML |}).
Proof.
  intros Hm Hhtml. split.
  - intros B HB.
    rewrite (decodeOutput_classified output l HTML);
      [|now rewrite Hm | discriminate].
    unfold canonicalize. rewrite Hm.
    assert (Hstart : startsWith output "data:text/html;base64," = true)
      by (rewrite HB; apply startsWith_append).
    rewrite Hstart, substringFrom_drop by lia.
    do 3 f_equal. subst output.
    exact (drop_append "data:text/html;base64," B).
  - intros Hstart.
    rewrite (decodeOutput_classified output l HTML);
      [|now rewrite Hm | discriminate].
    unfold canonicalize. now rewrite Hm, Hstart.
Qed.

(** C10.  For a text that is no data URL, starts with [http] and whose
    part after the last full stop is [html] once lower-cased, the content
    decoder answers type [HTML] (not [Link]) and hands the text out
    unchanged. *)
Theorem http_html_extension (output : string) (l : option string) :
  parseDataUrl output = None ->
  startsWith output "http" = true ->
  toLocaleLowerCase (substringFrom output (lastIndexOf output "." + 1))
  = "html" ->
  decodeOutput output l
  = OK {| label := l; content := output; contentType := HTML |}.
Proof.
  intros Hnone Hhttp Hext.
  pose proof (startsWith_lower _ _ Hhttp) as Hlow.
  change (toLocaleLowerCase "http") with "http" in Hlow.
  assert (Hsvg : startsWith (toLocaleLowerCase output) "<svg" = false)
    by (apply (startsWith_other_head _ "h" "<" "ttp" "svg");
        [discriminate | exact Hlow]).
  assert (Hhtml : startsWith (toLocaleLowerCase output) "<html" = false)
    by (apply (startsWith_other_head _ "h" "<" "ttp" "html");
        [discriminate | exact Hlow]).
  assert (Hdata : startsWith output "data:text/html;base64," = false)
    by (apply (startsWith_other_head _ "h" "d" "ttp" _);
        [discriminate | exact Hhttp]).
  rewrite (decodeOutput_classified output l HTML).
  - unfold canonicalize. now rewrite Hnone, Hlow, Hdata.
  - rewrite Hnone. unfold sniffSubtype. rewrite Hsvg, Hhtml.
    rewrite lastIndexOf_lower_dot, <- toLocaleLowerCase_substringFrom, Hext.
    reflexivity.
  - discriminate.
Qed.

End ParserFacts.

(* ================================================================== *)
(** ** The claims on concrete inputs

    The collaborators are those of [reference]: the data-URL parser of
    [DataUrlParser] and the JSON reader and printer of [JSON]. *)

(** C1 on an envelope with the three attributes. *)
Lemma three_attributes_sample :
  exists r,
    parseContractFunctionOutput (platform := reference) sampleEnvelope 0 100
    = OK r
    /\ map label (contents r)
       = [Some "image"; Some "image_data"; Some "animation_url"]
    /\ getProperty (json r) "image" = Some (JString "<svg></svg>").
Proof.
  destruct (three_attributes_three_contents (platform := reference)
              sampleEnvelope 0 100
              {| mediaType := "application/json";
                 data := substringFrom sampleEnvelope 22 |}
              sampleFields
              (JString "<svg></svg>")
              (JString "http://example.com/a.png")
              (JString "http://example.com/page.html"))
    as [Hshape Hruns]; try (vm_compute; reflexivity).
  edestruct Hruns as [r Hr];
    [reflexivity | reflexivity | reflexivity
     | vm_compute; reflexivity | vm_compute; reflexivity
     | vm_compute; reflexivity |].
  exists r. split; [exact Hr|].
  destruct (Hshape r Hr)
    as (s1 & s2 & s3 & c1 & c2 & c3 & E1 & E2 & E3 & D1 & D2 & D3
        & Hc & L1 & L2 & L3 & J1 & J2 & J3).
  split.
  - rewrite Hc. cbn [map]. now rewrite L1, L2, L3.
  - rewrite J1. inversion E1; subst s1. reflexivity.
Defined.

(** C2 on the harness output of example 1. *)
Lemma parseTestOutput_sample :
  parseTestOutput (platform := reference) sampleHarnessOutput
  = withGas 12345
      (parseContractFunctionOutput (platform := reference)
         (JsString.trim "http://example.com/a.png") 0 100).
Proof.
  assert (Hgas : isTextBetween sampleHarnessOutput "<NFT_GAS>" "</NFT_GAS>"
                   "12345").
  { exists EmptyString,
      "</NFT_GAS><NFT_OUTPUT>http://example.com/a.png</NFT_OUTPUT>".
    split; [reflexivity|]. split.
    - apply (proj1 (indexOf_firstOccurrence _ _ _)). vm_compute; reflexivity.
    - apply (proj1 (lastIndexOf_lastOccurrence _ _ _)).
      vm_compute; reflexivity. }
  assert (Hinner : isTextBetween sampleHarnessOutput "<NFT_OUTPUT>"
                     "</NFT_OUTPUT>" "http://example.com/a.png").
  { exists "<NFT_GAS>12345</NFT_GAS>", "</NFT_OUTPUT>".
    split; [reflexivity|]. split.
    - apply (proj1 (indexOf_firstOccurrence _ _ _)). vm_compute; reflexivity.
    - apply (proj1 (lastIndexOf_lastOccurrence _ _ _)).
      vm_compute; reflexivity. }
  exact (parseTestOutput_refines (platform := reference)
           sampleHarnessOutput "12345" "http://example.com/a.png"
           Hgas Hinner).
Defined.



(** C4, a text of length exactly [trimSize] does not come back
    unchanged. *)
Lemma trim_at_trimSize_annotates :
  len "abc" = 3
  /\ trim "abc" 3 = "abc... (3 bytes total)"
  /\ trim "abc" 3 <> "abc".
Proof. repeat split. discriminate. Qed.

(** C4 at lengths [trimSize] and [trimSize + 1]. *)
Lemma trim_boundary_sample :
  trim "abc" 3 = "abc" ++ "... (" ++ numberToString (len "abc")
                 ++ " bytes total)"
  /\ trim "abcd" 3 = "abc... (4 bytes total)".
Proof.
  split.
  - exact (proj1 (trim_boundary "abc" 3) eq_refl).
  - exact (proj1 (proj2 (trim_boundary "abcd" 3) eq_refl)).
Defined.

(** C5 on the text [foo.xyz]. *)
Lemma unknown_never_returned_sample :
  exists message,
    decodeOutput (platform := reference) "foo.xyz" (Some "image")
    = Throw (UnsupportedFormat message).
Proof.
  apply (unknown_never_returned (platform := reference)).
  reflexivity.
Defined.

(** C6 on the harness output of example 1. *)
Lemma contents_never_empty_sample :
  exists r,
    parseTestOutput (platform := reference) sampleHarnessOutput = OK r
    /\ contents r <> [].
Proof.
  eexists. split; [vm_compute; reflexivity|].
  apply (proj1 (proj2 (contents_never_empty (platform := reference)))
           sampleHarnessOutput).
  vm_compute; reflexivity.
Defined.


(** C8 on the canonical form of [<svg></svg>]. *)
Lemma canonical_svg_unchanged_sample :
  decodeOutput (platform := reference)
    ("data:image/svg+xml;base64," ++ "PHN2Zz48L3N2Zz4=") None
  = OK {| label := None;
          content := "data:image/svg+xml;base64," ++ "PHN2Zz48L3N2Zz4=";
          contentType := SVG |}.
Proof.
  apply (canonical_svg_unchanged (platform := reference)
           "PHN2Zz48L3N2Zz4=" None
           {| mediaType := "image/svg+xml"; data := "<svg></svg>" |});
    reflexivity.
Defined.

(** C9, not every Base64 data URL classified as [HTML] is decoded: one of
    media type [application/html] is handed out as the data URL itself,
    not as the decoded markup. *)
Lemma html_base64_not_decoded :
  DataUrlParser.parseDataUrl "data:application/html;base64,PGh0bWw+"
  = Some {| mediaType := "application/html"; data := "<html>" |}
  /\ decodeOutput (platform := reference)
       "data:application/html;base64,PGh0bWw+" None
     = OK {| label := None;
             content := "data:application/html;base64,PGh0bWw+";
             contentType := HTML |}
  /\ Base64.decode "PGh0bWw+" = "<html>"
  /\ "data:application/html;base64,PGh0bWw+" <> Base64.decode "PGh0bWw+".
Proof. repeat split. discriminate. Qed.

(** C9 on a data URL with the exact prefix. *)
Lemma html_base64_decoded_sample :
  decodeOutput (platform := reference) "data:text/html;base64,PGh0bWw+"
    None
  = OK {| label := None; content := Base64.decode "PGh0bWw+";
          contentType := HTML |}
  /\ Base64.decode "PGh0bWw+" = "<html>".
Proof.
  split; [|reflexivity].
  apply (html_base64_decoded (platform := reference)
           "data:text/html;base64,PGh0bWw+" None
           {| mediaType := "text/html"; data := "<html>" |});
    reflexivity.
Defined.

(** C10 on a link whose extension is written with capitals. *)
Lemma http_html_extension_sample :
  decodeOutput (platform := reference) "http://example.com/page.HTML" None
  = OK {| label := None; content := "http://example.com/page.HTML";
          contentType := HTML |}.
Proof.
  apply (http_html_extension (platform := reference)
           "http://example.com/page.HTML" None); reflexivity.
Defined.

(* ================================================================== *)
(** ** The examples of the specification *)

Example harness_output_example :
  parseTestOutput (platform := reference) sampleHarnessOutput
  = OK {| gas := 12345;
          contents := [{| label := None;
                          content := "http://example.com/a.png";
                          contentType := PNG |}];
          json := JNull |}.
Proof. vm_compute. reflexivity. Qed.

Example svg_envelope_example :
  parseContractFunctionOutput (platform := reference) svgEnvelope 0 100
  = OK {| gas := 0;
          contents := [{| label := Some "image";
                          content := "data:image/svg+xml;base64,PHN2Zz48L3N2Zz4=";
                          contentType := SVG |}];
          json := JObject [("image", JString "<svg></svg>")] |}.
Proof. vm_compute. reflexivity. Qed.

Example unknown_extension_example :
  decodeOutput (platform := reference) "foo.xyz" None
  = Throw (UnsupportedFormat
             ("Unsupported image format  Not a recognized image! "
              ++ LF ++ "foo.xyz")).
Proof. vm_compute. reflexivity. Qed.

Example utf8_svg_example :
  decodeOutput (platform := reference)
    "data:image/svg+xml;utf8,<svg></svg>" None
  = OK {| label := None;
          content := "data:image/svg+xml;base64,PHN2Zz48L3N2Zz4=";
          contentType := SVG |}.
Proof. vm_compute. reflexivity. Qed.

(** With the closing marker before the opening one, [substring] swaps its
    arguments: the text handed out runs from the closing marker to the end
    of the opening one, and no integer is read from it. *)
Example reversed_markers_example :
  getTextBetween "</NFT_GAS>12<NFT_GAS>" "<NFT_GAS>" "</NFT_GAS>"
  = "</NFT_GAS>12<NFT_GAS>"
  /\ parseInt "</NFT_GAS>12<NFT_GAS>" = None.
Proof. split; reflexivity. Qed.

(* ================================================================== *)
(** ** Further facts about the marker search *)

Lemma substring_sym (s : string) (a b : Z) : substring s a b = substring s b a.
Proof.
  unfold substring. now rewrite Nat.max_comm, Nat.min_comm.
Qed.

(** Whatever [substring] answers is a part of the text. *)
Lemma substring_part (s : string) (a b : Z) :
  exists u v, s = u ++ substring s a b ++ v.
Proof.
  unfold substring.
  set (lo := Nat.min (clamp s a) (clamp s b)).
  set (n := (Nat.max (clamp s a) (clamp s b) - lo)%nat).
  exists (take lo s), (drop n (drop lo s)).
  now rewrite take_drop, take_drop.
Qed.

Lemma getTextBetween_positions (text beginText endText : string) (i j : nat) :
  firstOccurrence beginText text i ->
  lastOccurrence endText text j ->
  getTextBetween text beginText endText
  = substring text (Z.of_nat i + len beginText) (Z.of_nat j).
Proof.
  intros Hfirst Hlast. unfold getTextBetween.
  rewrite (indexOf_first _ _ _ Hfirst), (lastIndexOf_last _ _ _ Hlast).
  rewrite (proj2 (Z.ltb_ge _ 0) (Nat2Z.is_nonneg _)).
  rewrite (proj2 (Z.ltb_ge _ 0) (Nat2Z.is_nonneg _)).
  reflexivity.
Qed.

Lemma absent_of_indexOf (p s : string) :
  indexOf s p = -1 -> forall j, ~ occursAt p s j.
Proof.
  intros H j Hj. unfold indexOf in H.
  destruct (indexOfFrom_cases p s 0) as [[_ Hnone]|(k & Hr & _)].
  - now apply Hnone in Hj.
  - lia.
Qed.

(** X1.  When the opening marker or the closing marker does not occur in
    the text, [getTextBetween] answers the empty text. *)
Theorem getTextBetween_missing_marker (text beginText endText : string) :
  (forall j, ~ occursAt beginText text j)
  \/ (forall j, ~ occursAt endText text j) ->
  getTextBetween text beginText endText = EmptyString.
Proof.
  intros [Hm|Hm]; unfold getTextBetween; cbv zeta.
  - now rewrite (indexOf_absent _ _ Hm).
  - rewrite (lastIndexOf_absent _ _ Hm). now rewrite orb_true_r.
Qed.

Lemma substring_reversed (text beginText endText before middle after : string) :
  text = before ++ endText ++ middle ++ beginText ++ after ->
  substring text
    (Z.of_nat (String.length (before ++ endText ++ middle)) + len beginText)
    (Z.of_nat (String.length before))
  = endText ++ middle ++ beginText.
Proof.
  intros Htext. rewrite substring_sym. unfold len.
  rewrite <- Nat2Z.inj_add, <- length_append, !append_assoc.
  rewrite Htext.
  replace (before ++ endText ++ middle ++ beginText)
    with (before ++ (endText ++ middle ++ beginText)) by reflexivity.
  replace (before ++ endText ++ middle ++ beginText ++ after)
    with (before ++ (endText ++ middle ++ beginText) ++ after)
    by now rewrite !append_assoc.
  apply substring_middle.
Qed.

(** X2.  When the last closing marker lies wholly before the first opening
    marker, [getTextBetween] does not answer the empty text: it answers
    the stretch from the closing marker up to the end of the opening
    marker, both markers included. *)
Theorem getTextBetween_reversed_markers
    (text beginText endText before middle after : string) :
  text = before ++ endText ++ middle ++ beginText ++ after ->
  firstOccurrence beginText text
    (String.length (before ++ endText ++ middle)) ->
  lastOccurrence endText text (String.length before) ->
  getTextBetween text beginText endText = endText ++ middle ++ beginText.
Proof.
  intros Htext Hfirst Hlast.
  rewrite (getTextBetween_positions _ _ _ _ _ Hfirst Hlast).
  now apply substring_reversed with (after := after).
Qed.

(** X3.  Whatever [getTextBetween] answers is a contiguous part of the
    text it was given. *)
Theorem getTextBetween_part (text beginText endText : string) :
  exists u v, text = u ++ getTextBetween text beginText endText ++ v.
Proof.
  unfold getTextBetween. cbv zeta.
  destruct ((indexOf text beginText <? 0) || (lastIndexOf text endText <? 0)).
  - now exists EmptyString, text.
  - apply substring_part.
Qed.

(* ================================================================== *)
(** ** Further facts about the truncation helper *)

(** X4.  With a [trimSize] of zero or less nothing of the content is
    kept: [trim] answers the note of the length alone, also for the empty
    content. *)
Theorem trim_nonpositive (content : string) (trimSize : Z) :
  trimSize <= 0 ->
  trim content trimSize
  = "... (" ++ numberToString (len content) ++ " bytes total)".
Proof.
  intros Hsize. unfold trim.
  replace (len content <? trimSize) with false
    by (symmetry; apply Z.ltb_ge; unfold len; lia).
  rewrite substring_prefix.
  replace (Z.to_nat trimSize) with 0%nat by lia. reflexivity.
Qed.

(* ================================================================== *)
(** ** Further facts about the parsers *)

Lemma getProperty_setProperty_other (j : JsonValue) (name k : string)
    (v : JsonValue) :
  name <> k -> getProperty (setProperty j name v) k = getProperty j k.
Proof.
  intros Hne. destruct j; try reflexivity.
  now apply lookup_setField_other.
Qed.

Lemma getProperty_setProperty_same (j : JsonValue) (name : string)
    (v w : JsonValue) :
  getProperty j name = Some w ->
  getProperty (setProperty j name v) name = Some v.
Proof.
  destruct j; try discriminate. intros _. apply lookup_setField_same.
Qed.

Lemma truthy_string (value : string) :
  truthy (Some (JString value)) = true <-> value <> EmptyString.
Proof.
  cbn [truthy]. rewrite negb_true_iff. apply String.eqb_neq.
Qed.

Lemma eqb_false_of_not_in (x : string) (l : list string) (y : string) :
  ~ In x l -> In y l -> String.eqb x y = false.
Proof.
  intros Hnot Hin. apply String.eqb_neq. intros ->. now apply Hnot.
Qed.

Section FurtherParserFacts.

Context {platform : Collaborators}.

Set Default Proof Using "Type".

Lemma decodeOutput_OK_eq (output : string) (l : option string) (c : Content) :
  decodeOutput output l = OK c ->
  c = {| label := l;
         content := canonicalize (parseDataUrl output) output
                      (toLocaleLowerCase output) (contentType c);
         contentType := contentType c |}
  /\ contentType c
     = classify (sniffSubtype (parseDataUrl output)
                   (toLocaleLowerCase output)) output.
Proof.
  unfold decodeOutput. cbv zeta.
  destruct (classify _ output) eqn:Hct; intros H; inversion H; subst;
    split; reflexivity.
Qed.

Lemma parseEnvelope_other (output : string) :
  (parseDataUrl output = None
   \/ exists m, parseDataUrl output = Some m
                /\ mediaType m <> "application/json") ->
  parseEnvelope output = OK JNull.
Proof.
  unfold parseEnvelope. cbv zeta.
  intros [Hnone|(m & Hm & Htype)].
  - now rewrite Hnone.
  - rewrite Hm. apply String.eqb_neq in Htype. now rewrite Htype.
Qed.

(** X5.  When the last [</NFT_GAS>] lies wholly before the first
    [<NFT_GAS>], the harness-output extractor fails with
    [InvalidGasFormat]; the text named in the message is the stretch from
    the closing marker up to the end of the opening one, whatever lies
    between them. *)
Theorem parseTestOutput_reversed_gas_markers
    (output before middle after : string) :
  output = before ++ "</NFT_GAS>" ++ middle ++ "<NFT_GAS>" ++ after ->
  firstOccurrence "<NFT_GAS>" output
    (String.length (before ++ "</NFT_GAS>" ++ middle)) ->
  lastOccurrence "</NFT_GAS>" output (String.length before) ->
  parseTestOutput output
  = Throw (InvalidGasFormat
             (invalidGasMessage ("</NFT_GAS>" ++ middle ++ "<NFT_GAS>")
                output)).
Proof.
  intros Htext Hfirst Hlast. unfold parseTestOutput. cbv zeta.
  rewrite (getTextBetween_positions _ _ _ _ _ Hfirst Hlast).
  rewrite (substring_reversed _ _ _ _ _ after Htext).
  reflexivity.
Qed.

(** X6.  When a marker of the output is missing while the gas reads as an
    integer, the harness-output extractor hands the empty text to the
    function-output parser, and the call fails with [UnsupportedFormat]
    (the empty text being no data URL). *)
Theorem parseTestOutput_missing_output_marker (output : string) (g : Z) :
  (forall j, ~ occursAt "<NFT_OUTPUT>" output j)
  \/ (forall j, ~ occursAt "</NFT_OUTPUT>" output j) ->
  parseInt (getTextBetween output "<NFT_GAS>" "</NFT_GAS>") = Some g ->
  parseDataUrl EmptyString = None ->
  parseTestOutput output
  = Throw (UnsupportedFormat (unsupportedMessage EmptyString None)).
Proof.
  intros Hmissing Hgas Hempty. unfold parseTestOutput. cbv zeta.
  rewrite Hgas.
  assert (Hinner : getTextBetween output "<NFT_OUTPUT>" "</NFT_OUTPUT>"
                   = EmptyString).
  { unfold getTextBetween. cbv zeta. destruct Hmissing as [Hm|Hm].
    - now rewrite (indexOf_absent _ _ Hm).
    - rewrite (lastIndexOf_absent _ _ Hm). now rewrite orb_true_r. }
  rewrite Hinner. change (JsString.trim EmptyString) with EmptyString.
  unfold parseContractFunctionOutput.
  rewrite parseEnvelope_other by now left.
  cbn [bind truthy].
  rewrite decodeOutput_unknown; [reflexivity|].
  rewrite Hempty. reflexivity.
Qed.

(** X7.  When the input is a data URL of media type [application/json]
    whose payload the JSON reader rejects, the function-output parser
    throws [InvalidJson]; its message is the reader's message alone when
    that is not empty (the payload is appended only to an empty one). *)
Theorem invalid_json_envelope
    (output : string) (g trimSize : Z) (m : MimeContent) (message : string) :
  parseDataUrl output = Some m ->
  mediaType m = "application/json" ->
  JSON_parse (data m) = inr message ->
  parseContractFunctionOutput output g trimSize
  = Throw (InvalidJson (if String.eqb message EmptyString
                        then "SyntaxError" ++ LF ++ data m
                        else message)).
Proof.
  intros Hm Htype Hparse.
  unfold parseContractFunctionOutput, parseEnvelope, parseJson. cbv zeta.
  now rewrite Hm, Htype, Hparse.
Qed.

(** X8.  When the payload of an [application/json] data URL parses to a
    falsy value (null, false, zero, the empty string), the function-output
    parser treats the input as if it held no JSON: the data URL itself goes
    to the content decoder, which knows no subtype [json], so the call
    throws [UnsupportedFormat], not [NoRenderableAttribute] (for an input
    that does not start with [http]). *)
Theorem falsy_json_envelope
    (output : string) (g trimSize : Z) (m : MimeContent) (j : JsonValue) :
  parseDataUrl output = Some m ->
  mediaType m = "application/json" ->
  JSON_parse (data m) = inl j ->
  truthy (Some j) = false ->
  startsWith output "http" = false ->
  parseContractFunctionOutput output g trimSize
  = Throw (UnsupportedFormat (unsupportedMessage output None)).
Proof.
  intros Hm Htype Hparse Hfalsy Hhttp.
  unfold parseContractFunctionOutput.
  rewrite (parseEnvelope_object _ _ _ Hm Htype Hparse).
  cbn [bind]. rewrite Hfalsy.
  rewrite decodeOutput_unknown; [reflexivity|].
  rewrite Hm. unfold sniffSubtype. rewrite Htype.
  change (substringFrom "application/json"
            (lastIndexOf "application/json" "/" + 1)) with "json".
  cbv zeta. change (endsWith "json" "+xml") with false. cbv iota.
  unfold classify. now rewrite Hhttp.
Qed.

(** X9.  When the attribute [image] of the parsed object is truthy but
    not a string (a number, [true], an array, an object), the
    function-output parser throws a [TypeError] at once, whatever the
    other attributes hold. *)
Theorem non_string_image_attribute
    (output : string) (g trimSize : Z) (j v : JsonValue) :
  parseEnvelope output = OK j ->
  truthy (Some j) = true ->
  getProperty j "image" = Some v ->
  truthy (Some v) = true ->
  (forall value, v <> JString value) ->
  parseContractFunctionOutput output g trimSize
  = Throw (TypeError "output.toLocaleLowerCase is not a function").
Proof.
  intros Henv Hj Hget Htruthy Hnot.
  unfold parseContractFunctionOutput. rewrite Henv. cbn [bind].
  rewrite Hj.
  rewrite (decodeAttribute_truthy "image" trimSize _ _ _ v) by assumption.
  destruct v; try reflexivity. now elim (Hnot s).
Qed.

Lemma attributeContent_ext (j j' : JsonValue) (name : string)
    (l : list Content) :
  getProperty j' name = getProperty j name ->
  attributeContent j' name l -> attributeContent j name l.
Proof. unfold attributeContent. intros ->. exact (fun H => H). Qed.

Lemma displayedProperty_ext (j j' : JsonValue) (trimSize : Z) (k : string) :
  getProperty j' k = getProperty j k ->
  displayedProperty j' trimSize k = displayedProperty j trimSize k.
Proof. unfold displayedProperty. now intros ->. Qed.

Lemma displayedProperty_other (j : JsonValue) (trimSize : Z) (k : string) :
  isMediaAttribute k = false -> displayedProperty j trimSize k = getProperty j k.
Proof.
  unfold displayedProperty. intros ->.
  now destruct (getProperty j k) as [[]|].
Qed.

(** What one block that returns has done, in terms of the object it
    started from. *)
Lemma decodeAttribute_step (name : string) (trimSize : Z)
    (j j' : JsonValue) (l l' : list Content) (b b' : bool) :
  isMediaAttribute name = true ->
  decodeAttribute name trimSize (j, l, b) = OK (j', l', b') ->
  exists added,
    l' = (l ++ added)%list
    /\ attributeContent j name added
    /\ (forall k, name <> k -> getProperty j' k = getProperty j k)
    /\ getProperty j' name = displayedProperty j trimSize name.
Proof.
  intros Hmedia. unfold decodeAttribute.
  destruct (truthy (getProperty j name)) eqn:Htruthy.
  - destruct (getProperty j name) as [[| | |value| |]|] eqn:Hget;
      try discriminate.
    destruct (decodeOutput value (Some name)) as [c|e] eqn:Hc; cbn [bind];
      [|discriminate].
    intros H; inversion H; subst; clear H.
    apply truthy_string in Htruthy.
    exists [c]. repeat split.
    + right. now exists value, c.
    + intros k Hk. now apply getProperty_setProperty_other.
    + rewrite (getProperty_setProperty_same _ _ _ _ Hget).
      unfold displayedProperty. rewrite Hget, Hmedia.
      apply String.eqb_neq in Htruthy. now rewrite Htruthy.
  - intros H; inversion H; subst; clear H.
    exists []. repeat split.
    + now rewrite app_nil_r.
    + now left.
    + unfold displayedProperty.
      destruct (getProperty j' name) as [[| | |value| |]|]; try reflexivity.
      cbn [truthy] in Htruthy. apply negb_false_iff in Htruthy.
      now rewrite Htruthy, andb_false_r.
Qed.

(** X10.  On a truthy parsed value, the contents of a returned result are
    what the attributes [image], [image_data] and [animation_url] give, in
    this order: nothing for an attribute that is falsy (missing, null,
    false, zero or the empty string), the decoded attribute for one that
    is a non-empty string. *)
Theorem contents_from_truthy_attributes
    (output : string) (g trimSize : Z) (j : JsonValue) (r : ParsedOutput) :
  parseEnvelope output = OK j ->
  truthy (Some j) = true ->
  parseContractFunctionOutput output g trimSize = OK r ->
  exists l1 l2 l3,
    contents r = (l1 ++ l2 ++ l3)%list
    /\ attributeContent j "image" l1
    /\ attributeContent j "image_data" l2
    /\ attributeContent j "animation_url" l3.
Proof.
  intros Henv Hj H. unfold parseContractFunctionOutput in H.
  rewrite Henv in H. cbn [bind] in H. rewrite Hj in H.
  destruct (decodeAttribute "image" trimSize (j, [], false))
    as [[[j1 c1] b1]|e] eqn:H1; cbn [bind] in H; [|discriminate].
  destruct (decodeAttribute "image_data" trimSize (j1, c1, b1))
    as [[[j2 c2] b2]|e] eqn:H2; cbn [bind] in H; [|discriminate].
  destruct (decodeAttribute "animation_url" trimSize (j2, c2, b2))
    as [[[j3 c3] b3]|e] eqn:H3; cbn [bind] in H; [|discriminate].
  destruct b3; cbn [negb] in H; [|discriminate].
  inversion H; subst r; clear H. cbn [contents].
  apply decodeAttribute_step in H1 as (l1 & -> & A1 & O1 & _);
    [|reflexivity].
  apply decodeAttribute_step in H2 as (l2 & -> & A2 & O2 & _);
    [|reflexivity].
  apply decodeAttribute_step in H3 as (l3 & -> & A3 & _ & _);
    [|reflexivity].
  exists l1, l2, l3. cbn [app]. rewrite <- app_assoc.
  repeat split; [exact A1 | |].
  - apply (attributeContent_ext j j1); [|exact A2].
    apply O1. discriminate.
  - apply (attributeContent_ext j j2); [|exact A3].
    rewrite O2, O1; [reflexivity | discriminate | discriminate].
Qed.

(** X11.  On a truthy parsed value, the [json] of a returned result
    differs from the parsed value only in the media attributes that hold a
    non-empty string, which hold their display string instead; every other
    property reads as before. *)
Theorem json_of_result
    (output : string) (g trimSize : Z) (j : JsonValue) (r : ParsedOutput) :
  parseEnvelope output = OK j ->
  truthy (Some j) = true ->
  parseContractFunctionOutput output g trimSize = OK r ->
  forall k, getProperty (json r) k = displayedProperty j trimSize k.
Proof.
  intros Henv Hj H k. unfold parseContractFunctionOutput in H.
  rewrite Henv in H. cbn [bind] in H. rewrite Hj in H.
  destruct (decodeAttribute "image" trimSize (j, [], false))
    as [[[j1 c1] b1]|e] eqn:H1; cbn [bind] in H; [|discriminate].
  destruct (decodeAttribute "image_data" trimSize (j1, c1, b1))
    as [[[j2 c2] b2]|e] eqn:H2; cbn [bind] in H; [|discriminate].
  destruct (decodeAttribute "animation_url" trimSize (j2, c2, b2))
    as [[[j3 c3] b3]|e] eqn:H3; cbn [bind] in H; [|discriminate].
  destruct b3; cbn [negb] in H; [|discriminate].
  inversion H; subst r; clear H. cbn [json].
  apply decodeAttribute_step in H1 as (l1 & _ & _ & O1 & D1); [|reflexivity].
  apply decodeAttribute_step in H2 as (l2 & _ & _ & O2 & D2); [|reflexivity].
  apply decodeAttribute_step in H3 as (l3 & _ & _ & O3 & D3); [|reflexivity].
  destruct (String.eqb_spec "image" k) as [<-|N1].
  { rewrite O3, O2 by discriminate. exact D1. }
  destruct (String.eqb_spec "image_data" k) as [<-|N2].
  { rewrite O3 by discriminate. rewrite D2.
    apply displayedProperty_ext. apply O1. discriminate. }
  destruct (String.eqb_spec "animation_url" k) as [<-|N3].
  { rewrite D3. apply displayedProperty_ext.
    rewrite O2, O1; [reflexivity | discriminate | discriminate]. }
  rewrite O3, O2, O1 by assumption.
  symmetry. apply displayedProperty_other.
  unfold isMediaAttribute.
  rewrite (proj2 (String.eqb_neq k "image")) by congruence.
  rewrite (proj2 (String.eqb_neq k "image_data")) by congruence.
  rewrite (proj2 (String.eqb_neq k "animation_url")) by congruence.
  reflexivity.
Qed.

Lemma statesAgree_step (name : string) (rest : list string)
    (t1 t2 : Z) (st1 st2 : JsonValue * list Content * bool) :
  statesAgree (name :: rest) st1 st2 ->
  ~ In name rest ->
  match decodeAttribute name t1 st1, decodeAttribute name t2 st2 with
  | OK st1', OK st2' => statesAgree rest st1' st2'
  | Throw e1, Throw e2 => e1 = e2
  | _, _ => False
  end.
Proof.
  destruct st1 as [[j1 l1] b1], st2 as [[j2 l2] b2].
  intros (-> & -> & Hkeys & Hsame) Hnot. unfold decodeAttribute.
  rewrite <- (Hkeys name) by now left.
  destruct (truthy (getProperty j1 name)).
  - destruct (getProperty j1 name) as [[| | |value| |]|]; try reflexivity.
    destruct (decodeOutput value (Some name)) as [c|e]; cbn [bind];
      [|reflexivity].
    repeat split; try discriminate.
    intros k Hk. rewrite !getProperty_setProperty_other.
    + apply Hkeys. now right.
    + intros ->. now apply Hnot.
    + intros ->. now apply Hnot.
  - repeat split; [|exact Hsame].
    intros k Hk. apply Hkeys. now right.
Qed.

(** X12.  The argument [trimSize] bears on the field [json] only: for two
    values of it the function-output parser throws the same error or
    returns results with the same [gas] and the same contents. *)
Theorem trimSize_only_in_json (output : string) (g t1 t2 : Z) :
  agreeOutsideJson (parseContractFunctionOutput output g t1)
    (parseContractFunctionOutput output g t2).
Proof.
  unfold parseContractFunctionOutput.
  destruct (parseEnvelope output) as [j|e]; cbn [bind]; [|reflexivity].
  destruct (truthy (Some j)).
  - assert (H0 : statesAgree ["image"; "image_data"; "animation_url"]
                   (j, [], false) (j, [], false))
      by (repeat split; reflexivity).
    pose proof (statesAgree_step "image" _ t1 t2 _ _ H0) as H1.
    destruct (decodeAttribute "image" t1 (j, [], false)) as [s1|e1],
             (decodeAttribute "image" t2 (j, [], false)) as [s1'|e1'];
      cbn [bind];
      try (exfalso; apply H1; intros [E|[E|[]]]; discriminate).
    2:{ apply H1. intros [E|[E|[]]]; discriminate. }
    assert (H1' : statesAgree ["image_data"; "animation_url"] s1 s1')
      by (apply H1; intros [E|[E|[]]]; discriminate).
    pose proof (statesAgree_step "image_data" _ t1 t2 _ _ H1') as H2.
    destruct (decodeAttribute "image_data" t1 s1) as [s2|e2],
             (decodeAttribute "image_data" t2 s1') as [s2'|e2'];
      cbn [bind];
      try (exfalso; apply H2; intros [E|[]]; discriminate).
    2:{ apply H2. intros [E|[]]; discriminate. }
    assert (H2' : statesAgree ["animation_url"] s2 s2')
      by (apply H2; intros [E|[]]; discriminate).
    pose proof (statesAgree_step "animation_url" _ t1 t2 _ _ H2') as H3.
    destruct (decodeAttribute "animation_url" t1 s2) as [[[j3 l3] b3]|e3],
             (decodeAttribute "animation_url" t2 s2')
               as [[[j3' l3'] b3']|e3'];
      cbn [bind]; try (exfalso; apply H3; intros []).
    2:{ apply H3. intros []. }
    destruct (H3 (fun F => F)) as (-> & -> & _ & Hsame).
    destruct b3'; cbn [negb agreeOutsideJson gas contents].
    + split; reflexivity.
    + now rewrite (Hsame eq_refl).
  - destruct (decodeOutput output None); cbn [bind agreeOutsideJson];
      [split|]; reflexivity.
Qed.

(* ------------------------------------------------------------------ *)
(** *** The content decoder *)

Lemma sniffSubtype_extension (output : string) :
  startsWith (toLocaleLowerCase output) "<svg" = false ->
  startsWith (toLocaleLowerCase output) "<html" = false ->
  sniffSubtype None (toLocaleLowerCase output)
  = toLocaleLowerCase (substringFrom output (lastIndexOf output "." + 1)).
Proof.
  intros Hsvg Hhtml. unfold sniffSubtype. rewrite Hsvg, Hhtml.
  now rewrite lastIndexOf_lower_dot, toLocaleLowerCase_substringFrom.
Qed.

(** Two different literal heads cannot both start a text. *)
Lemma startsWith_lower_clash (output p q : string) :
  startsWith (toLocaleLowerCase output) p = true ->
  (forall v, startsWith (p ++ v) (toLocaleLowerCase q) = false) ->
  startsWith output q = false.
Proof.
  intros Hp Hclash.
  destruct (startsWith output q) eqn:Hq; [|reflexivity].
  apply startsWith_lower in Hq.
  apply startsWith_prefix in Hp as [v Hv]. rewrite Hv in Hq.
  now rewrite Hclash in Hq.
Qed.

(** X13.  For a data URL, the content the decoder hands out is the input
    itself, except when the input starts with [data:text/html;base64,] or
    with [data:image/svg+xml;utf8,]. *)
Theorem data_url_passes_through
    (output : string) (l : option string) (m : MimeContent) (c : Content) :
  parseDataUrl output = Some m ->
  startsWith output "data:text/html;base64," = false ->
  startsWith output "data:image/svg+xml;utf8," = false ->
  decodeOutput output l = OK c ->
  content c = output.
Proof.
  intros Hm Hhtml Hsvg H. apply decodeOutput_OK_eq in H as [-> _].
  cbn [content]. unfold canonicalize. rewrite Hm, Hhtml, Hsvg.
  now destruct (contentType c).
Qed.


(** X15.  A text that is no data URL and starts with [<html] in any letter
    case is handed out unchanged, with type [HTML]. *)
Theorem inline_html_passes_through (output : string) (l : option string) :
  parseDataUrl output = None ->
  startsWith (toLocaleLowerCase output) "<html" = true ->
  decodeOutput output l
  = OK {| label := l; content := output; contentType := HTML |}.
Proof.
  intros Hnone Hhtml.
  assert (Hsvg : startsWith (toLocaleLowerCase output) "<svg" = false).
  { apply startsWith_prefix in Hhtml as [v ->]. reflexivity. }
  assert (Hhttp : startsWith (toLocaleLowerCase output) "http" = false).
  { apply startsWith_prefix in Hhtml as [v ->]. reflexivity. }
  assert (Hdata : startsWith output "data:text/html;base64," = false).
  { apply (startsWith_lower_clash output "<html"); [exact Hhtml|].
    reflexivity. }
  rewrite (decodeOutput_classified output l HTML).
  - unfold canonicalize. now rewrite Hnone, Hhttp, Hsvg, Hdata.
  - rewrite Hnone. unfold sniffSubtype. now rewrite Hsvg, Hhtml.
  - discriminate.
Qed.

(** X16.  For a text that is no data URL, is no inline SVG or HTML and
    whose lower-cased extension is none of svg, png, jpg, jpeg, html: when
    the text starts with [http] (in lower case) it is handed out unchanged
    with type [Link]; otherwise the call throws [UnsupportedFormat], also
    for a text that starts with [HTTP] in capitals. *)
Theorem link_or_unsupported (output : string) (l : option string) :
  parseDataUrl output = None ->
  startsWith (toLocaleLowerCase output) "<svg" = false ->
  startsWith (toLocaleLowerCase output) "<html" = false ->
  ~ In (toLocaleLowerCase
          (substringFrom output (lastIndexOf output "." + 1)))
       ["svg"; "png"; "jpg"; "jpeg"; "html"] ->
  decodeOutput output l
  = if startsWith output "http"
    then OK {| label := l; content := output; contentType := Link |}
    else Throw (UnsupportedFormat (unsupportedMessage output l)).
Proof.
  intros Hnone Hsvg Hhtml Hext.
  assert (Hclass : classify (sniffSubtype (parseDataUrl output)
                               (toLocaleLowerCase output)) output
                   = if startsWith output "http" then Link else Unknown).
  { rewrite Hnone, sniffSubtype_extension by assumption. unfold classify.
    rewrite !(eqb_false_of_not_in _ _ _ Hext); cbn [In]; auto 10. }
  destruct (startsWith output "http") eqn:Hhttp.
  - rewrite (decodeOutput_classified output l Link);
      [|exact Hclass | discriminate].
    unfold canonicalize. rewrite Hnone.
    apply startsWith_lower in Hhttp.
    change (toLocaleLowerCase "http") with "http" in Hhttp.
    now rewrite Hhttp.
  - now apply decodeOutput_unknown.
Qed.

(** X17.  A text that is no data URL, is no inline SVG or HTML and whose
    extension is png, jpg or jpeg in any letter case is handed out
    unchanged, with type [PNG] for png and [JPG] for jpg and jpeg. *)
Theorem image_by_extension (output : string) (l : option string) :
  parseDataUrl output = None ->
  startsWith (toLocaleLowerCase output) "<svg" = false ->
  startsWith (toLocaleLowerCase output) "<html" = false ->
  In (toLocaleLowerCase (substringFrom output (lastIndexOf output "." + 1)))
     ["png"; "jpg"; "jpeg"] ->
  decodeOutput output l
  = OK {| label := l; content := output;
          contentType :=
            if String.eqb
                 (toLocaleLowerCase
                    (substringFrom output (lastIndexOf output "." + 1)))
                 "png"
            then PNG else JPG |}.
Proof.
  intros Hnone Hsvg Hhtml Hext.
  assert (Hcontent : forall ct, ct = PNG \/ ct = JPG ->
            canonicalize None output (toLocaleLowerCase output) ct = output).
  { intros ct Hct. unfold canonicalize. rewrite Hsvg.
    destruct (startsWith (toLocaleLowerCase output) "http");
      now destruct Hct as [->| ->]. }
  rewrite (decodeOutput_classified output l
             (if String.eqb
                   (toLocaleLowerCase
                      (substringFrom output (lastIndexOf output "." + 1)))
                   "png"
              then PNG else JPG)).
  - rewrite Hnone, Hcontent; [reflexivity|].
    destruct (String.eqb _ "png"); auto.
  - rewrite Hnone, sniffSubtype_extension by assumption.
    destruct Hext as [<-|[<-|[<-|[]]]]; reflexivity.
  - destruct (String.eqb _ "png"); discriminate.
Qed.

(** X18.  A text that is no data URL, is no inline SVG or HTML and whose
    extension is svg in any letter case (a link or a file name) has type
    [SVG] and is handed out unchanged, not wrapped into a data URL. *)
Theorem svg_by_extension (output : string) (l : option string) :
  parseDataUrl output = None ->
  startsWith (toLocaleLowerCase output) "<svg" = false ->
  startsWith (toLocaleLowerCase output) "<html" = false ->
  toLocaleLowerCase (substringFrom output (lastIndexOf output "." + 1))
  = "svg" ->
  startsWith output "data:image/svg+xml;utf8," = false ->
  decodeOutput output l
  = OK {| label := l; content := output; contentType := SVG |}.
Proof.
  intros Hnone Hsvg Hhtml Hext Hutf8.
  rewrite (decodeOutput_classified output l SVG).
  - unfold canonicalize. rewrite Hnone, Hsvg, Hutf8.
    now destruct (startsWith (toLocaleLowerCase output) "http").
  - rewrite Hnone, sniffSubtype_extension, Hext by assumption. reflexivity.
  - discriminate.
Qed.

(** X19.  The canonical form is a fixed point: when the decoder has
    wrapped an inline SVG into a content [c], decoding the content of [c]
    again (a data URL of media type [image/svg+xml]) gives [c] back. *)
Theorem canonical_svg_fixed_point
    (output : string) (l : option string) (c : Content) (m : MimeContent) :
  parseDataUrl output = None ->
  startsWith (toLocaleLowerCase output) "<svg" = true ->
  decodeOutput output l = OK c ->
  parseDataUrl (content c) = Some m ->
  mediaType m = "image/svg+xml" ->
  decodeOutput (content c) l = OK c.
Proof.
  intros Hnone Hsvg Hc Hm Htype.
  assert (Hhttp : startsWith (toLocaleLowerCase output) "http" = false).
  { apply startsWith_prefix in Hsvg as [v ->]. reflexivity. }
  assert (Hutf8 : startsWith output "data:image/svg+xml;utf8," = false).
  { apply (startsWith_lower_clash output "<svg"); [exact Hsvg|].
    reflexivity. }
  rewrite (decodeOutput_classified output l SVG) in Hc.
  - unfold canonicalize in Hc. rewrite Hnone, Hhttp, Hsvg, Hutf8 in Hc.
    inversion Hc; subst c; clear Hc. cbn [content] in *.
    rewrite (decodeOutput_classified _ l SVG).
    + rewrite Hm. reflexivity.
    + rewrite Hm. unfold sniffSubtype. rewrite Htype. reflexivity.
    + discriminate.
  - rewrite Hnone. unfold sniffSubtype. now rewrite Hsvg.
  - discriminate.
Qed.

(* ------------------------------------------------------------------ *)
(** *** The errors of the function-output parser *)

Lemma decodeAttribute_not_found (name : string) (trimSize : Z)
    (j j' : JsonValue) (l l' : list Content) :
  decodeAttribute name trimSize (j, l, false) = OK (j', l', false) ->
  truthy (getProperty j name) = false /\ j' = j /\ l' = l.
Proof.
  unfold decodeAttribute.
  destruct (truthy (getProperty j name)).
  - destruct (getProperty j name) as [[| | |value| |]|]; try discriminate.
    destruct (decodeOutput value (Some name)); cbn [bind]; discriminate.
  - intros H; inversion H. repeat split.
Qed.

Lemma decodeAttribute_found (name : string) (trimSize : Z)
    (j j' : JsonValue) (l l' : list Content) (b' : bool) :
  decodeAttribute name trimSize (j, l, true) = OK (j', l', b') -> b' = true.
Proof.
  intros H. apply decodeAttribute_OK in H
    as [(_ & _ & ->)|(_ & _ & _ & _ & _ & _ & ->)]; reflexivity.
Qed.

(** X20.  The function-output parser throws nothing but: [InvalidJson],
    when the JSON reader rejects the payload of an [application/json] data
    URL; [NoRenderableAttribute], exactly on a truthy parsed value whose
    three media attributes are all falsy, with the untouched value printed
    in the message; [UnsupportedFormat]; or a [TypeError].  It never
    throws [InvalidGasFormat]. *)
Theorem errors_of_function_output_parser
    (output : string) (g trimSize : Z) (e : Error) :
  parseContractFunctionOutput output g trimSize = Throw e ->
  (exists m message,
      parseDataUrl output = Some m
      /\ mediaType m = "application/json"
      /\ JSON_parse (data m) = inr message
      /\ exists text, e = InvalidJson text)
  \/ (exists j,
         parseEnvelope output = OK j
         /\ truthy (Some j) = true
         /\ truthy (getProperty j "image") = false
         /\ truthy (getProperty j "image_data") = false
         /\ truthy (getProperty j "animation_url") = false
         /\ e = NoRenderableAttribute
                  ("Invalid JSON. Content must be in image, image_data or animation_url attribute"
                   ++ LF ++ JSON_stringify j 4))
  \/ (exists message, e = UnsupportedFormat message)
  \/ (exists message, e = TypeError message).
Proof.
  unfold parseContractFunctionOutput.
  destruct (parseEnvelope output) as [j|e0] eqn:Henv; cbn [bind].
  - destruct (truthy (Some j)) eqn:Hj.
    + destruct (decodeAttribute "image" trimSize (j, [], false))
        as [[[j1 l1] b1]|e1] eqn:H1; cbn [bind].
      2:{ intros H; inversion H; subst e1. right; right.
          apply decodeAttribute_Throw in H1. exact H1. }
      destruct (decodeAttribute "image_data" trimSize (j1, l1, b1))
        as [[[j2 l2] b2]|e2] eqn:H2; cbn [bind].
      2:{ intros H; inversion H; subst e2. right; right.
          apply decodeAttribute_Throw in H2. exact H2. }
      destruct (decodeAttribute "animation_url" trimSize (j2, l2, b2))
        as [[[j3 l3] b3]|e3] eqn:H3; cbn [bind].
      2:{ intros H; inversion H; subst e3. right; right.
          apply decodeAttribute_Throw in H3. exact H3. }
      destruct b3; cbn [negb]; [discriminate|].
      intros H; inversion H; subst e; clear H.
      destruct b2; [apply decodeAttribute_found in H3; discriminate|].
      destruct b1; [apply decodeAttribute_found in H2; discriminate|].
      apply decodeAttribute_not_found in H1 as (T1 & -> & ->).
      apply decodeAttribute_not_found in H2 as (T2 & -> & ->).
      apply decodeAttribute_not_found in H3 as (T3 & -> & ->).
      right; left. exists j. repeat split; assumption.
    + destruct (decodeOutput output None) as [c|e1] eqn:Hc; cbn [bind];
        [discriminate|].
      intros H; inversion H; subst e1. apply decodeOutput_Throw in Hc.
      right; right; left. eexists; exact Hc.
  - intros H; inversion H; subst e0; clear H. left.
    unfold parseEnvelope, parseJson in Henv. cbv zeta in Henv.
    destruct (parseDataUrl output) as [m|]; [|discriminate].
    destruct (String.eqb (mediaType m) "application/json") eqn:Htype;
      [|discriminate].
    destruct (JSON_parse (data m)) as [v|message] eqn:Hparse; [discriminate|].
    exists m, message. apply String.eqb_eq in Htype.
    repeat split; try assumption.
    inversion Henv. eexists; reflexivity.
Qed.

End FurtherParserFacts.

(* ================================================================== *)
(** ** The further facts on concrete inputs *)

(** X1 on a text without markers. *)
Lemma getTextBetween_missing_marker_sample :
  getTextBetween "gas: 12345" "<NFT_GAS>" "</NFT_GAS>" = EmptyString.
Proof.
  apply getTextBetween_missing_marker. left.
  apply absent_of_indexOf. reflexivity.
Defined.

(** X2 on a text whose closing marker comes first. *)
Lemma getTextBetween_reversed_markers_sample :
  getTextBetween "</NFT_GAS>12<NFT_GAS>" "<NFT_GAS>" "</NFT_GAS>"
  = "</NFT_GAS>" ++ "12" ++ "<NFT_GAS>".
Proof.
  apply (getTextBetween_reversed_markers _ _ _ EmptyString "12" EmptyString).
  - reflexivity.
  - apply (proj1 (indexOf_firstOccurrence _ _ _)). vm_compute; reflexivity.
  - apply (proj1 (lastIndexOf_lastOccurrence _ _ _)). vm_compute; reflexivity.
Defined.

(** X4 at [trimSize] zero. *)
Lemma trim_nonpositive_sample :
  trim "abc" 0 = "... (3 bytes total)"
  /\ trim EmptyString 0 = "... (0 bytes total)".
Proof.
  split.
  - exact (trim_nonpositive "abc" 0 (Z.le_refl 0)).
  - exact (trim_nonpositive EmptyString 0 (Z.le_refl 0)).
Defined.

(** X5 on a harness output whose gas markers are swapped. *)
Lemma parseTestOutput_reversed_gas_markers_sample :
  exists message,
    parseTestOutput (platform := reference)
      "</NFT_GAS>12<NFT_GAS><NFT_OUTPUT>a.png</NFT_OUTPUT>"
    = Throw (InvalidGasFormat message).
Proof.
  eexists.
  apply (parseTestOutput_reversed_gas_markers (platform := reference)
           _ EmptyString "12" "<NFT_OUTPUT>a.png</NFT_OUTPUT>").
  - reflexivity.
  - apply (proj1 (indexOf_firstOccurrence _ _ _)). vm_compute; reflexivity.
  - apply (proj1 (lastIndexOf_lastOccurrence _ _ _)). vm_compute; reflexivity.
Defined.

(** X6 on a harness output without output markers. *)
Lemma parseTestOutput_missing_output_marker_sample :
  exists message,
    parseTestOutput (platform := reference) "<NFT_GAS>7</NFT_GAS>a.png"
    = Throw (UnsupportedFormat message).
Proof.
  eexists.
  apply (parseTestOutput_missing_output_marker (platform := reference)
           "<NFT_GAS>7</NFT_GAS>a.png" 7).
  - left. apply absent_of_indexOf. reflexivity.
  - reflexivity.
  - reflexivity.
Defined.

(** X7 on an envelope whose payload is cut short. *)
Lemma invalid_json_envelope_sample :
  parseContractFunctionOutput (platform := reference)
    "data:application/json,{oops" 0 100
  = Throw (InvalidJson "Unexpected token in JSON").
Proof.
  exact (invalid_json_envelope (platform := reference)
           "data:application/json,{oops" 0 100
           {| mediaType := "application/json"; data := "{oops" |}
           "Unexpected token in JSON" eq_refl eq_refl eq_refl).
Defined.

(** X8 on an envelope whose payload is the number zero. *)
Lemma falsy_json_envelope_sample :
  exists message,
    parseContractFunctionOutput (platform := reference)
      "data:application/json,0" 0 100
    = Throw (UnsupportedFormat message).
Proof.
  eexists.
  exact (falsy_json_envelope (platform := reference)
           "data:application/json,0" 0 100
           {| mediaType := "application/json"; data := "0" |}
           (JNumber 0 0) eq_refl eq_refl eq_refl eq_refl eq_refl).
Defined.

(** X9 on an envelope whose [image] is the number 5. *)
Lemma non_string_image_attribute_sample :
  parseContractFunctionOutput (platform := reference)
    numberImageEnvelope 0 100
  = Throw (TypeError "output.toLocaleLowerCase is not a function").
Proof.
  apply (non_string_image_attribute (platform := reference)
           numberImageEnvelope 0 100
           (JObject [("image", JNumber 5 0)]) (JNumber 5 0));
    try reflexivity.
  intros value. discriminate.
Defined.

(** X10 on an envelope whose [image] is empty. *)
Lemma contents_from_truthy_attributes_sample :
  exists r,
    parseContractFunctionOutput (platform := reference)
      emptyImageEnvelope 0 100 = OK r
    /\ exists l1 l2 l3,
         contents r = (l1 ++ l2 ++ l3)%list
         /\ attributeContent (platform := reference)
              (JObject emptyImageFields) "image" l1
         /\ attributeContent (platform := reference)
              (JObject emptyImageFields) "image_data" l2
         /\ attributeContent (platform := reference)
              (JObject emptyImageFields) "animation_url" l3.
Proof.
  eexists. split; [vm_compute; reflexivity|].
  apply (contents_from_truthy_attributes (platform := reference)
           emptyImageEnvelope 0 100 (JObject emptyImageFields));
    vm_compute; reflexivity.
Defined.

(** X11 on the same envelope with [trimSize] 10: the name and the empty
    [image] read as before, [image_data] reads as its display string. *)
Lemma json_of_result_sample :
  exists r,
    parseContractFunctionOutput (platform := reference)
      emptyImageEnvelope 0 10 = OK r
    /\ getProperty (json r) "name" = Some (JString "Token 1")
    /\ getProperty (json r) "image" = Some (JString EmptyString)
    /\ getProperty (json r) "image_data"
       = Some (JString "http://exa... (24 bytes total)").
Proof.
  eexists. split; [vm_compute; reflexivity|].
  split; [|split];
    refine (eq_trans
              (json_of_result (platform := reference) emptyImageEnvelope
                 0 10 (JObject emptyImageFields) _ _ _ _ _) _);
    vm_compute; reflexivity.
Defined.

(** X13 on a PNG data URL. *)
Lemma data_url_passes_through_sample :
  exists c,
    decodeOutput (platform := reference)
      "data:image/png;base64,iVBORw0KGgo=" None = OK c
    /\ content c = "data:image/png;base64,iVBORw0KGgo="
    /\ contentType c = PNG.
Proof.
  eexists. split; [vm_compute; reflexivity|]. split; [|reflexivity].
  apply (data_url_passes_through (platform := reference)
           "data:image/png;base64,iVBORw0KGgo=" None
           {| mediaType := "image/png";
              data := Base64.decode "iVBORw0KGgo=" |});
    vm_compute; reflexivity.
Defined.


(** X15 on an HTML fragment written with capitals. *)
Lemma inline_html_passes_through_sample :
  decodeOutput (platform := reference) "<HTML><body>hi</body></HTML>" None
  = OK {| label := None; content := "<HTML><body>hi</body></HTML>";
          contentType := HTML |}.
Proof.
  apply (inline_html_passes_through (platform := reference)); reflexivity.
Defined.

(** X16 on a link without known extension, in lower case and in capitals. *)
Lemma link_or_unsupported_sample :
  decodeOutput (platform := reference) "http://example.com/about" None
  = OK {| label := None; content := "http://example.com/about";
          contentType := Link |}
  /\ exists message,
       decodeOutput (platform := reference) "HTTP://EXAMPLE.COM/ABOUT" None
       = Throw (UnsupportedFormat message).
Proof.
  split; [|eexists].
  - refine (link_or_unsupported (platform := reference)
              "http://example.com/about" None eq_refl eq_refl eq_refl _).
    vm_compute. intros [E|[E|[E|[E|[E|[]]]]]]; discriminate E.
  - refine (link_or_unsupported (platform := reference)
              "HTTP://EXAMPLE.COM/ABOUT" None eq_refl eq_refl eq_refl _).
    vm_compute. intros [E|[E|[E|[E|[E|[]]]]]]; discriminate E.
Defined.

(** X17 on file names with the extensions PNG and jpeg. *)
Lemma image_by_extension_sample :
  decodeOutput (platform := reference) "picture.PNG" None
  = OK {| label := None; content := "picture.PNG"; contentType := PNG |}
  /\ decodeOutput (platform := reference) "ipfs://Qm/photo.jpeg" None
     = OK {| label := None; content := "ipfs://Qm/photo.jpeg";
             contentType := JPG |}.
Proof.
  split.
  - refine (image_by_extension (platform := reference) "picture.PNG" None
              eq_refl eq_refl eq_refl _).
    vm_compute. now left.
  - refine (image_by_extension (platform := reference)
              "ipfs://Qm/photo.jpeg" None eq_refl eq_refl eq_refl _).
    vm_compute. now right; right; left.
Defined.

(** X18 on a link to an SVG file. *)
Lemma svg_by_extension_sample :
  decodeOutput (platform := reference) "http://example.com/a.svg" None
  = OK {| label := None; content := "http://example.com/a.svg";
          contentType := SVG |}.
Proof.
  apply (svg_by_extension (platform := reference)); reflexivity.
Defined.

(** X19 on the fragment [<svg></svg>]. *)
Lemma canonical_svg_fixed_point_sample :
  exists c,
    decodeOutput (platform := reference) "<svg></svg>" None = OK c
    /\ decodeOutput (platform := reference) (content c) None = OK c.
Proof.
  eexists. split; [vm_compute; reflexivity|].
  apply (canonical_svg_fixed_point (platform := reference) "<svg></svg>"
           None _ {| mediaType := "image/svg+xml"; data := "<svg></svg>" |});
    vm_compute; reflexivity.
Defined.

(** X20 on an envelope without media attribute. *)
Lemma errors_of_function_output_parser_sample :
  exists e,
    parseContractFunctionOutput (platform := reference)
      ("data:application/json,{" ++ JSON.quoted "name" ++ ":1}") 0 100
    = Throw e
    /\ exists message, e = NoRenderableAttribute message.
Proof.
  eexists. split; [vm_compute; reflexivity|].
  destruct (errors_of_function_output_parser (platform := reference)
              ("data:application/json,{" ++ JSON.quoted "name" ++ ":1}")
              0 100 _ eq_refl)
    as [(m & message & _ & _ & _ & text & E)
       |[(j & _ & _ & _ & _ & _ & E)
        |[[message E]|[message E]]]];
    try discriminate E.
  eexists; exact E.
Defined.
